(** * Todo backend (FastAPI + SQLAlchemy + SQLite): model and properties

    A shallow embedding of [app/schemas.py], [app/models.py] and
    [app/main.py].  The request handlers are written with explicit state
    passing over the [todos] table; the clock ([datetime.utcnow()]) is an
    input of the handlers that read it. *)

From Stdlib Require Import ZArith NArith List Bool Lia String Ascii.
From Stdlib Require Import Sorting.Sorted Sorting.Permutation.
Import ListNotations.

Open Scope string_scope.
Open Scope list_scope.
Open Scope Z_scope.

(** ** Python strings

    A [str] is a sequence of Unicode code points.  [strip] removes the
    characters for which [str.isspace] holds from both ends; [lower] is the
    SQL function of SQLite, which folds the ASCII letters only; [compare] is
    the BINARY collation (on UTF-8 text it agrees with the lexicographic
    order of the code points). *)
Module Str.

Definition str := list N.

Definition of_string (s : string) : str :=
  map N_of_ascii (list_ascii_of_string s).

Definition between (lo hi c : N) : bool := ((lo <=? c) && (c <=? hi))%N.

Definition isspace (c : N) : bool :=
  between 9 13 c || between 28 32 c || (c =? 133)%N || (c =? 160)%N
  || (c =? 5760)%N || between 8192 8202 c || (c =? 8232)%N || (c =? 8233)%N
  || (c =? 8239)%N || (c =? 8287)%N || (c =? 12288)%N.

Fixpoint lstrip (s : str) : str :=
  match s with
  | [] => []
  | c :: s' => if isspace c then lstrip s' else s
  end.

Definition rstrip (s : str) : str := rev (lstrip (rev s)).

Definition strip (s : str) : str := rstrip (lstrip s).

Definition len (s : str) : Z := Z.of_nat (List.length s).

Definition lower_char (c : N) : N :=
  if between 65 90 c then (c + 32)%N else c.

Definition lower (s : str) : str := map lower_char s.

Fixpoint compare (a b : str) : comparison :=
  match a, b with
  | [], [] => Eq
  | [], _ :: _ => Lt
  | _ :: _, [] => Gt
  | x :: a', y :: b' =>
      match (x ?= y)%N with
      | Eq => compare a' b'
      | c => c
      end
  end.

Definition eqb (a b : str) : bool :=
  match compare a b with Eq => true | _ => false end.

End Str.

Abbreviation str := Str.str.
Coercion Str.of_string : string >-> Str.str.

(** A naive [datetime], counted in microseconds.  The table stores it as
    fixed-width text, so the order of the stored values is the order of the
    instants. *)
Definition datetime := Z.

(** ** app/models.py *)
Record Todo := mkTodo {
  id : Z;
  title : str;
  description : option str;
  deadline : option datetime;
  completed : bool;
  created_at : datetime;
  updated_at : datetime
}.

(** ** app/schemas.py

    A JSON body gives each member of an object as missing, as [null] or as a
    value; the pydantic models below are what the handlers receive. *)
Inductive field (A : Type) :=
| Absent
| Null
| Value (a : A).
Arguments Absent {A}.
Arguments Null {A}.
Arguments Value {A} a.

Definition field_value {A} (f : field A) : option A :=
  match f with
  | Value a => Some a
  | _ => None
  end.

Record TodoCreate := mkTodoCreate {
  c_title : str;
  c_description : option str;
  c_deadline : option datetime
}.

Record TodoUpdate := mkTodoUpdate {
  u_title : option str;
  u_description : option str;
  u_deadline : option datetime;
  u_completed : option bool
}.

Record CreateBody := mkCreateBody {
  cb_title : field str;
  cb_description : field str;
  cb_deadline : field datetime
}.

Record UpdateBody := mkUpdateBody {
  ub_title : field str;
  ub_description : field str;
  ub_deadline : field datetime;
  ub_completed : field bool
}.

(** [Field(min_length=1, max_length=200)]: the length of the string as it was
    sent. *)
Definition title_ok (s : str) : bool :=
  (1 <=? Str.len s) && (Str.len s <=? 200).

(** [TodoCreate.model_validate]: [title] is required and is not nullable. *)
Definition validate_TodoCreate (b : CreateBody) : option TodoCreate :=
  match cb_title b with
  | Value s =>
      if title_ok s
      then Some (mkTodoCreate s (field_value (cb_description b))
                              (field_value (cb_deadline b)))
      else None
  | _ => None
  end.

(** [TodoUpdate.model_validate]: every member defaults to [None]; the length
    constraint applies to a title that is a string. *)
Definition validate_TodoUpdate (b : UpdateBody) : option TodoUpdate :=
  let ok := match ub_title b with
            | Value s => title_ok s
            | _ => true
            end in
  if ok
  then Some (mkTodoUpdate (field_value (ub_title b))
                          (field_value (ub_description b))
                          (field_value (ub_deadline b))
                          (field_value (ub_completed b)))
  else None.

(** ** The [todos] table, rows in rowid order *)
Module Db.

Definition Table := list Todo.

(** [Session.get(Todo, i)], for an [i] that the driver can bind: a signed
    64-bit integer.  For any other [i] the driver raises before a row is
    looked up; the statements about a lookup carry that bound. *)
Definition get (db : Table) (i : Z) : option Todo :=
  find (fun r => id r =? i) db.

(** The rowid given to an inserted row: one more than the largest in use.
    This is the rule of the store as long as the largest rowid is below
    2^63 - 1; the statements about the new identifier carry that bound. *)
Definition next_id (db : Table) : Z :=
  match db with
  | [] => 1
  | r :: db' => 1 + fold_right Z.max (id r) (map id db')
  end.

(** [Session.add] of a new object, [commit], [refresh]. *)
Definition add (db : Table) (new : Z -> Todo) : Todo * Table :=
  let r := new (next_id db) in (r, db ++ [r]).

(** [Session.add] of a loaded object, [commit]: UPDATE ... WHERE id = ?. *)
Definition update (db : Table) (t : Todo) : Table :=
  map (fun r => if id r =? id t then t else r) db.

(** [Session.delete], [commit]: DELETE ... WHERE id = ?. *)
Definition delete (db : Table) (i : Z) : Table :=
  filter (fun r => negb (id r =? i)) db.

(** The primary key constraint. *)
Fixpoint pk_unique (db : Table) : bool :=
  match db with
  | [] => true
  | r :: db' => forallb (fun r' => negb (id r' =? id r)) db' && pk_unique db'
  end.

End Db.

(** ** The SELECT statements the application builds, and their evaluation *)
Module Sql.

Inductive value :=
| NULL
| INTEGER (z : Z)
| TEXT (s : str).

(** The order of values in ORDER BY: NULL first, then numbers, then text. *)
Definition compare (a b : value) : comparison :=
  match a, b with
  | NULL, NULL => Eq
  | NULL, _ => Lt
  | _, NULL => Gt
  | INTEGER x, INTEGER y => (x ?= y)
  | INTEGER _, TEXT _ => Lt
  | TEXT _, INTEGER _ => Gt
  | TEXT x, TEXT y => Str.compare x y
  end.

Inductive direction := asc | desc.

Definition directed (o : direction) (c : comparison) : comparison :=
  match o with
  | asc => c
  | desc => CompOpp c
  end.

Definition clause := (direction * (Todo -> value))%type.

Fixpoint row_compare (cl : list clause) (a b : Todo) : comparison :=
  match cl with
  | [] => Eq
  | (o, e) :: cl' =>
      match directed o (compare (e a) (e b)) with
      | Eq => row_compare cl' a b
      | c => c
      end
  end.

Record Select := mkSelect {
  order_by_clauses : list clause;
  limit_clause : option Z;
  offset_clause : option Z
}.

Definition select_Todo : Select := mkSelect [] None None.

Definition order_by (stmt : Select) (cl : list clause) : Select :=
  mkSelect (order_by_clauses stmt ++ cl) (limit_clause stmt) (offset_clause stmt).

Definition limit (stmt : Select) (n : Z) : Select :=
  mkSelect (order_by_clauses stmt) (Some n) (offset_clause stmt).

Definition offset (stmt : Select) (n : Z) : Select :=
  mkSelect (order_by_clauses stmt) (limit_clause stmt) (Some n).

Fixpoint insert_row (cl : list clause) (r : Todo) (l : list Todo) : list Todo :=
  match l with
  | [] => [r]
  | x :: l' =>
      match row_compare cl r x with
      | Gt => x :: insert_row cl r l'
      | _ => r :: l
      end
  end.

Definition sort_rows (cl : list clause) (l : list Todo) : list Todo :=
  fold_right (insert_row cl) [] l.

(** OFFSET drops rows (a negative one drops none); LIMIT keeps rows (a
    negative one keeps all).  Both are bound as signed 64-bit integers; for a
    value outside that range the driver raises, and the statements about a
    page carry that bound. *)
Definition paginate (lim off : option Z) (rows : list Todo) : list Todo :=
  let rows := match off with
              | Some m => skipn (Z.to_nat m) rows
              | None => rows
              end in
  match lim with
  | Some n => if n <? 0 then rows else firstn (Z.to_nat n) rows
  | None => rows
  end.

(** [db.execute(stmt).scalars().all()] *)
Definition execute (db : Db.Table) (stmt : Select) : list Todo :=
  paginate (limit_clause stmt) (offset_clause stmt)
           (sort_rows (order_by_clauses stmt) db).

End Sql.

(** ** app/main.py *)

Inductive response (A : Type) :=
| Ok (status_code : Z) (body : A)
| Error (status_code : Z) (detail : string).
Arguments Ok {A} status_code body.
Arguments Error {A} status_code detail.

(** What [raise HTTPException(status_code=404, detail="Todo not found")]
    answers, and what a request that fails validation is answered. *)
Definition NotFoundError {A} : response A := Error 404 "Todo not found".
Definition ValidationError {A} : response A := Error 422 "validation error".

Definition Todo_id (t : Todo) : Sql.value := Sql.INTEGER (id t).
Definition Todo_created_at (t : Todo) : Sql.value := Sql.INTEGER (created_at t).
Definition Todo_deadline (t : Todo) : Sql.value :=
  match deadline t with
  | None => Sql.NULL
  | Some d => Sql.INTEGER d
  end.
Definition lower_Todo_title (t : Todo) : Sql.value :=
  Sql.TEXT (Str.lower (title t)).

Definition apply_sort (stmt : Sql.Select) (sort_by order : str) : Sql.Select :=
  let order_fn := if Str.eqb order "asc" then Sql.asc else Sql.desc in
  if Str.eqb sort_by "created_at" then
    Sql.order_by stmt [(order_fn, Todo_created_at); (order_fn, Todo_id)]
  else if Str.eqb sort_by "title" then
    Sql.order_by stmt [(order_fn, lower_Todo_title); (order_fn, Todo_id)]
  else
    let nulls_last_flag := fun t =>
      match deadline t with
      | None => Sql.INTEGER 1
      | Some _ => Sql.INTEGER 0
      end in
    Sql.order_by stmt
      [(order_fn, nulls_last_flag); (order_fn, Todo_deadline); (order_fn, Todo_id)].

Definition create_todo (now : datetime) (payload : TodoCreate) (db : Db.Table)
  : response Todo * Db.Table :=
  let (todo, db') :=
    Db.add db (fun i =>
      mkTodo i (Str.strip (c_title payload)) (c_description payload)
             (c_deadline payload) false now now) in
  (Ok 201 todo, db').

Definition list_todos (db : Db.Table) (sort_by order : str) (limit offset : Z)
  : response (list Todo) :=
  let stmt := Sql.select_Todo in
  let stmt := apply_sort stmt sort_by order in
  let stmt := Sql.offset (Sql.limit stmt limit) offset in
  let todos := Sql.execute db stmt in
  Ok 200 todos.

Definition get_todo (todo_id : Z) (db : Db.Table) : response Todo * Db.Table :=
  match Db.get db todo_id with
  | None => (NotFoundError, db)
  | Some todo => (Ok 200 todo, db)
  end.

Definition set_title (t : Todo) (v : str) : Todo :=
  mkTodo (id t) v (description t) (deadline t) (completed t)
         (created_at t) (updated_at t).
Definition set_description (t : Todo) (v : option str) : Todo :=
  mkTodo (id t) (title t) v (deadline t) (completed t)
         (created_at t) (updated_at t).
Definition set_deadline (t : Todo) (v : option datetime) : Todo :=
  mkTodo (id t) (title t) (description t) v (completed t)
         (created_at t) (updated_at t).
Definition set_completed (t : Todo) (v : bool) : Todo :=
  mkTodo (id t) (title t) (description t) (deadline t) v
         (created_at t) (updated_at t).
Definition set_updated_at (t : Todo) (v : datetime) : Todo :=
  mkTodo (id t) (title t) (description t) (deadline t) (completed t)
         (created_at t) v.

Definition is_None {A} (o : option A) : bool :=
  match o with
  | None => true
  | Some _ => false
  end.

Definition update_todo (now : datetime) (todo_id : Z) (payload : TodoUpdate)
  (db : Db.Table) : response Todo * Db.Table :=
  match Db.get db todo_id with
  | None => (NotFoundError, db)
  | Some todo =>
      let todo := match u_title payload with
                  | Some s => set_title todo (Str.strip s)
                  | None => todo
                  end in
      let todo := match u_description payload with
                  | Some s => set_description todo (Some s)
                  | None => todo
                  end in
      let todo := if negb (is_None (u_deadline payload))
                     || is_None (u_deadline payload)
                  then set_deadline todo (u_deadline payload)
                  else todo in
      let todo := match u_completed payload with
                  | Some c => set_completed todo c
                  | None => todo
                  end in
      let todo := set_updated_at todo now in
      (Ok 200 todo, Db.update db todo)
  end.

Definition delete_todo (todo_id : Z) (db : Db.Table) : response unit * Db.Table :=
  match Db.get db todo_id with
  | None => (NotFoundError, db)
  | Some todo => (Ok 204 tt, Db.delete db (id todo))
  end.

(** *** The routes: validation of the request, then the handler *)

Record ListQuery := mkListQuery {
  q_sort_by : option str;
  q_order : option str;
  q_limit : option Z;
  q_offset : option Z
}.

(** [Query(default=d, pattern="^(a|b|c)$")] *)
Definition Query_str (default : str) (alternatives : list str) (v : option str)
  : option str :=
  match v with
  | None => Some default
  | Some s => if existsb (Str.eqb s) alternatives then Some s else None
  end.

(** [Query(default=d, ge=lo, le=hi)]; [hi] is left out for [offset]. *)
Definition Query_int (default lo : Z) (hi : option Z) (v : option Z) : option Z :=
  match v with
  | None => Some default
  | Some n =>
      if (lo <=? n) && match hi with Some h => n <=? h | None => true end
      then Some n else None
  end.

Definition GET_todos (q : ListQuery) (db : Db.Table)
  : response (list Todo) * Db.Table :=
  match Query_str "deadline" ["deadline" : str; "created_at" : str; "title" : str]
                  (q_sort_by q),
        Query_str "asc" ["asc" : str; "desc" : str] (q_order q),
        Query_int 50 1 (Some 200) (q_limit q),
        Query_int 0 0 None (q_offset q) with
  | Some sort_by, Some order, Some limit, Some offset =>
      (list_todos db sort_by order limit offset, db)
  | _, _, _, _ => (ValidationError, db)
  end.

Definition POST_todos (now : datetime) (body : CreateBody) (db : Db.Table)
  : response Todo * Db.Table :=
  match validate_TodoCreate body with
  | Some payload => create_todo now payload db
  | None => (ValidationError, db)
  end.

Definition PUT_todo (now : datetime) (todo_id : Z) (body : UpdateBody)
  (db : Db.Table) : response Todo * Db.Table :=
  match validate_TodoUpdate body with
  | Some payload => update_todo now todo_id payload db
  | None => (ValidationError, db)
  end.

(** ** Vocabulary of the statements *)

(** Three-way comparisons that are total preorders. *)
Record preorder {A : Type} (cmp : A -> A -> comparison) : Prop := mkPreorder {
  cmp_antisym : forall a b, cmp b a = CompOpp (cmp a b);
  cmp_eq_l : forall a b c, cmp a b = Eq -> cmp a c = cmp b c;
  cmp_lt_trans : forall a b c, cmp a b = Lt -> cmp b c = Lt -> cmp a c = Lt
}.

Definition le {A : Type} (cmp : A -> A -> comparison) (a b : A) : Prop :=
  cmp a b <> Gt.

Definition lex {A : Type} (cmp cmp' : A -> A -> comparison) (a b : A)
  : comparison :=
  match cmp a b with
  | Eq => cmp' a b
  | c => c
  end.

(** Rows are ordered by [key] with ties broken by [id], both in the direction
    [order]: [a] may stand before [b]. *)
Definition in_order {K : Type} (order : str) (lt : K -> K -> Prop)
  (key : Todo -> K) (a b : Todo) : Prop :=
  (order = ("asc" : str) /\
   (lt (key a) (key b) \/ (key a = key b /\ id a <= id b))) \/
  (order = ("desc" : str) /\
   (lt (key b) (key a) \/ (key a = key b /\ id b <= id a))).

Definition str_lt (x y : str) : Prop := Str.compare x y = Lt.

Definition sort_keys : list str := ["deadline" : str; "created_at" : str; "title" : str].
Definition directions : list str := ["asc" : str; "desc" : str].

(** A query with every missing parameter replaced by its documented default. *)
Definition with_defaults (q : ListQuery) : ListQuery :=
  mkListQuery
    (Some (match q_sort_by q with Some s => s | None => "deadline" : str end))
    (Some (match q_order q with Some s => s | None => "asc" : str end))
    (Some (match q_limit q with Some n => n | None => 50 end))
    (Some (match q_offset q with Some n => n | None => 0 end)).

(** A table of [n] rows with the identifiers 1..n, every third one without a
    deadline. *)
Definition sample_row (i : nat) : Todo :=
  let z := Z.of_nat i in
  mkTodo z ("task" : str) None
         (if z mod 3 =? 0 then None else Some (1000 - z)) false (z / 2) (z / 2).

Definition sample_table (n : nat) : Db.Table := map sample_row (seq 1 n).

(** Every row was last written no earlier than it was created. *)
Definition timestamps_ok (db : Db.Table) : Prop :=
  Forall (fun t => created_at t <= updated_at t) db.

(** A string that neither begins nor ends with a blank. *)
Definition blank_free_ends (s : str) : Prop :=
  (forall c, hd_error s = Some c -> Str.isspace c = false) /\
  (forall c, hd_error (rev s) = Some c -> Str.isspace c = false).

(** Every stored title is free of blanks at both ends and at most 200
    characters long (the width of the column). *)
Definition titles_ok (db : Db.Table) : Prop :=
  Forall (fun t => blank_free_ends (title t) /\ Str.len (title t) <= 200) db.

(** The order of the default sort: [a] may stand before [b]. *)
Definition deadline_order (order : str) (a b : Todo) : Prop :=
  (order = ("asc" : str) /\
   match deadline a, deadline b with
   | Some x, Some y => x < y \/ (x = y /\ id a <= id b)
   | Some _, None => True
   | None, Some _ => False
   | None, None => id a <= id b
   end) \/
  (order = ("desc" : str) /\
   match deadline a, deadline b with
   | Some x, Some y => y < x \/ (x = y /\ id b <= id a)
   | Some _, None => False
   | None, Some _ => True
   | None, None => id b <= id a
   end).

(** The integers that the store holds and that the driver binds. *)
Definition int64 (z : Z) : Prop := - 2 ^ 63 <= z < 2 ^ 63.

(** A title with the letters A to Z replaced by a to z and every other
    character as it is. *)
Definition ascii_lowercase (s : str) : str :=
  map (fun c => if ((c <? 65) || (90 <? c))%N then c else (c + 32)%N) s.


(** The order that a listing by [sort_by] in the direction [order] has. *)
Definition listing_order (sort_by order : str) (a b : Todo) : Prop :=
  (sort_by = ("created_at" : str) /\ in_order order Z.lt created_at a b) \/
  (sort_by = ("title" : str) /\
   in_order order str_lt (fun t => ascii_lowercase (title t)) a b) \/
  (sort_by = ("deadline" : str) /\ deadline_order order a b).

(** * Properties *)

(** ** Three-way comparisons *)
Section Comparisons.

Context {A : Type}.

Variable cmp : A -> A -> comparison.
Hypothesis cmp_pre : preorder cmp.

Lemma cmp_eq_r a b c : cmp b c = Eq -> cmp a b = cmp a c.
Proof.
  intros H.
  assert (H1 : cmp c b = Eq) by (rewrite (cmp_antisym _ cmp_pre), H; reflexivity).
  pose proof (cmp_eq_l _ cmp_pre c b a H1) as H2.
  rewrite (cmp_antisym _ cmp_pre a c), (cmp_antisym _ cmp_pre a b) in H2.
  destruct (cmp a b), (cmp a c); simpl in H2; congruence.
Qed.

Lemma le_trans a b c : le cmp a b -> le cmp b c -> le cmp a c.
Proof.
  unfold le. intros Hab Hbc.
  destruct (cmp a b) eqn:E1; [| | congruence].
  - rewrite (cmp_eq_l _ cmp_pre _ _ c E1). exact Hbc.
  - destruct (cmp b c) eqn:E2; [| | congruence].
    + rewrite <- (cmp_eq_r a b c E2), E1. discriminate.
    + rewrite (cmp_lt_trans _ cmp_pre _ _ _ E1 E2). discriminate.
Qed.

Lemma gt_le a b : cmp a b = Gt -> le cmp b a.
Proof.
  unfold le. intros H. rewrite (cmp_antisym _ cmp_pre), H. discriminate.
Qed.

Lemma preorder_opp : preorder (fun a b => CompOpp (cmp a b)).
Proof.
  destruct cmp_pre as [Ha He Ht]. split.
  - intros a b. rewrite (Ha a b). reflexivity.
  - intros a b c H. f_equal. apply He.
    destruct (cmp a b); simpl in H; congruence.
  - intros a b c H1 H2.
    assert (E1 : cmp b a = Lt) by (rewrite Ha; exact H1).
    assert (E2 : cmp c b = Lt) by (rewrite Ha; exact H2).
    rewrite <- Ha. exact (Ht _ _ _ E2 E1).
Qed.

Variable cmp' : A -> A -> comparison.
Hypothesis cmp_pre' : preorder cmp'.

Lemma preorder_lex : preorder (lex cmp cmp').
Proof.
  pose proof cmp_eq_r as Her.
  destruct cmp_pre as [Ha He Ht]. destruct cmp_pre' as [Ha' He' Ht'].
  unfold lex. split.
  - intros a b. rewrite (Ha a b). destruct (cmp a b); simpl; auto.
  - intros a b c H. destruct (cmp a b) eqn:E; try discriminate.
    rewrite (He _ _ c E). destruct (cmp b c); auto.
  - intros a b c H1 H2.
    destruct (cmp a b) eqn:E1; try discriminate;
      destruct (cmp b c) eqn:E2; try discriminate.
    + rewrite (He _ _ c E1), E2. eauto.
    + rewrite (He _ _ c E1), E2. reflexivity.
    + rewrite <- (Her a b c E2), E1. reflexivity.
    + rewrite (Ht _ _ _ E1 E2). reflexivity.
Qed.

End Comparisons.

Lemma preorder_on {A B : Type} (cmp : B -> B -> comparison) (f : A -> B) :
  preorder cmp -> preorder (fun a b => cmp (f a) (f b)).
Proof.
  intros [Ha He Ht]. split; intros; eauto.
Qed.

Lemma preorder_Z : preorder Z.compare.
Proof.
  split.
  - intros a b. apply Z.compare_antisym.
  - intros a b c H. apply Z.compare_eq in H. now subst.
  - intros a b c H1 H2. rewrite Z.compare_lt_iff in *. lia.
Qed.

Module StrFacts.

Lemma compare_eq_iff (a b : str) : Str.compare a b = Eq <-> a = b.
Proof.
  revert b. induction a as [|x a IH]; intros [|y b]; simpl; split;
    try discriminate; auto.
  - destruct (x ?= y)%N eqn:E; try discriminate.
    apply N.compare_eq in E. intros H. apply IH in H. now subst.
  - intros H. injection H as -> ->. rewrite N.compare_refl. now apply IH.
Qed.

Lemma eqb_eq (a b : str) : Str.eqb a b = true <-> a = b.
Proof.
  unfold Str.eqb. rewrite <- compare_eq_iff.
  destruct (Str.compare a b); split; congruence.
Qed.

Lemma eqb_neq (a b : str) : Str.eqb a b = false <-> a <> b.
Proof.
  rewrite <- eqb_eq. destruct (Str.eqb a b); split; congruence.
Qed.

Lemma preorder_str_compare : preorder Str.compare.
Proof.
  split.
  - induction a as [|x a IH]; intros [|y b]; simpl; auto.
    rewrite (N.compare_antisym x y). destruct (x ?= y)%N; simpl; auto.
  - intros a b c H. apply compare_eq_iff in H. now subst.
  - induction a as [|x a IH]; intros [|y b] [|z c]; simpl; try discriminate; auto.
    destruct (x ?= y)%N eqn:E1; try discriminate;
      destruct (y ?= z)%N eqn:E2; try discriminate; intros H1 H2.
    + apply N.compare_eq in E1, E2. subst. rewrite N.compare_refl. eauto.
    + apply N.compare_eq in E1. subst. now rewrite E2.
    + apply N.compare_eq in E2. subst. now rewrite E1.
    + rewrite N.compare_lt_iff in E1, E2.
      assert (E : (x ?= z)%N = Lt) by (rewrite N.compare_lt_iff; lia).
      now rewrite E.
Qed.

End StrFacts.

(** ** Stripping *)
Module StripFacts.

Lemma lstrip_length (s : str) : (List.length (Str.lstrip s) <= List.length s)%nat.
Proof.
  induction s as [|c s IH]; simpl; [lia|].
  destruct (Str.isspace c); simpl; lia.
Qed.

Lemma strip_len (s : str) : Str.len (Str.strip s) <= Str.len s.
Proof.
  unfold Str.len, Str.strip, Str.rstrip. rewrite length_rev.
  pose proof (lstrip_length (rev (Str.lstrip s))) as H1.
  pose proof (lstrip_length s) as H2.
  rewrite length_rev in H1. lia.
Qed.

Lemma lstrip_head (s : str) (c : N) :
  hd_error (Str.lstrip s) = Some c -> Str.isspace c = false.
Proof.
  induction s as [|x s IH]; simpl; [discriminate|].
  destruct (Str.isspace x) eqn:E; [exact IH|].
  simpl. intros H. injection H as <-. exact E.
Qed.

Lemma lstrip_snoc (l : str) (c : N) :
  Str.isspace c = false -> Str.lstrip (l ++ [c]) = Str.lstrip l ++ [c].
Proof.
  intros H. induction l as [|x l IH]; simpl.
  - now rewrite H.
  - destruct (Str.isspace x); [exact IH | reflexivity].
Qed.

Lemma lstrip_blank (s : str) :
  forallb Str.isspace s = true -> Str.lstrip s = [].
Proof.
  induction s as [|c s IH]; simpl; [reflexivity|].
  destruct (Str.isspace c); [exact IH | discriminate].
Qed.

Lemma strip_blank (s : str) :
  forallb Str.isspace s = true -> Str.strip s = [].
Proof.
  intros H. unfold Str.strip. now rewrite (lstrip_blank s H).
Qed.

Lemma strip_ends (s : str) : blank_free_ends (Str.strip s).
Proof.
  unfold blank_free_ends, Str.strip, Str.rstrip. split.
  - destruct (Str.lstrip s) as [|x u] eqn:E; [simpl; discriminate|].
    assert (Hx : Str.isspace x = false) by (apply (lstrip_head s); now rewrite E).
    simpl rev. rewrite (lstrip_snoc (rev u) x Hx), rev_unit. simpl.
    intros c H. injection H as <-. exact Hx.
  - rewrite rev_involutive. apply lstrip_head.
Qed.

Lemma forallb_rev (f : N -> bool) (l : str) :
  forallb f l = true -> forallb f (rev l) = true.
Proof.
  rewrite !forallb_forall. intros H x Hx. apply H. now apply in_rev.
Qed.

Lemma lstrip_split (s : str) :
  exists l, s = l ++ Str.lstrip s /\ forallb Str.isspace l = true.
Proof.
  induction s as [|c s (l & E & Hl)]; simpl.
  - exists []. auto.
  - destruct (Str.isspace c) eqn:Hc.
    + exists (c :: l). simpl. rewrite Hc, Hl. split; [now f_equal | reflexivity].
    + exists []. auto.
Qed.

(** [strip] takes blanks, and nothing else, off both ends. *)
Lemma strip_split (s : str) :
  exists l r, s = l ++ Str.strip s ++ r /\
              forallb Str.isspace l = true /\ forallb Str.isspace r = true.
Proof.
  destruct (lstrip_split s) as (l & E & Hl).
  destruct (lstrip_split (rev (Str.lstrip s))) as (r & E' & Hr).
  exists l, (rev r). split; [|split; [exact Hl | now apply forallb_rev]].
  unfold Str.strip, Str.rstrip. rewrite <- rev_app_distr, <- E', rev_involutive.
  exact E.
Qed.

Lemma strip_nonempty (s : str) :
  existsb (fun c => negb (Str.isspace c)) s = true -> Str.strip s <> [].
Proof.
  intros H E. destruct (strip_split s) as (l & r & Es & Hl & Hr).
  rewrite E in Es. simpl in Es. apply existsb_exists in H.
  destruct H as (c & Hc & Hn). rewrite Es in Hc. apply in_app_or in Hc.
  rewrite forallb_forall in Hl, Hr.
  destruct Hc as [Hc|Hc]; [apply Hl in Hc | apply Hr in Hc];
    rewrite Hc in Hn; discriminate.
Qed.

End StripFacts.

(** ** ORDER BY sorts the rows *)
Module SqlFacts.

Lemma preorder_value_compare : preorder Sql.compare.
Proof.
  destruct preorder_Z as [Za Ze Zt].
  destruct StrFacts.preorder_str_compare as [Sa Se St].
  split.
  - intros [|x|x] [|y|y]; simpl; auto.
  - intros [|x|x] [|y|y] [|z|z]; simpl; try discriminate; auto.
  - intros [|x|x] [|y|y] [|z|z]; simpl; try discriminate; eauto.
Qed.

Lemma preorder_directed {A} (o : Sql.direction) (cmp : A -> A -> comparison) :
  preorder cmp -> preorder (fun a b => Sql.directed o (cmp a b)).
Proof.
  intros H. destruct o; simpl.
  - destruct H as [Ha He Ht]. split; eauto.
  - now apply preorder_opp.
Qed.

Lemma preorder_row_compare (cl : list Sql.clause) :
  preorder (Sql.row_compare cl).
Proof.
  induction cl as [|[o e] cl IH]; simpl.
  - split; intros; auto; discriminate.
  - apply (preorder_lex
             (fun a b => Sql.directed o (Sql.compare (e a) (e b)))
             (preorder_directed o _ (preorder_on Sql.compare e preorder_value_compare))
             (Sql.row_compare cl) IH).
Qed.

Section Sorting.

Variable cl : list Sql.clause.

Lemma insert_row_perm (r : Todo) (l : list Todo) :
  Permutation (Sql.insert_row cl r l) (r :: l).
Proof.
  induction l as [|x l IH]; simpl; [reflexivity|].
  destruct (Sql.row_compare cl r x); try reflexivity.
  rewrite IH. apply perm_swap.
Qed.

Lemma sort_rows_perm (l : list Todo) : Permutation (Sql.sort_rows cl l) l.
Proof.
  induction l as [|x l IH]; simpl; [reflexivity|].
  unfold Sql.sort_rows in *. simpl.
  rewrite insert_row_perm. now constructor.
Qed.

Lemma insert_row_sorted (r : Todo) (l : list Todo) :
  StronglySorted (le (Sql.row_compare cl)) l ->
  StronglySorted (le (Sql.row_compare cl)) (Sql.insert_row cl r l).
Proof.
  pose proof (preorder_row_compare cl) as P.
  induction l as [|x l IH]; simpl; intros H.
  - repeat constructor.
  - inversion H as [|? ? Hl Hx]; subst.
    assert (Hcons : le (Sql.row_compare cl) r x ->
                    StronglySorted (le (Sql.row_compare cl)) (r :: x :: l)).
    { intros Hrx. constructor; [exact H|]. constructor; [exact Hrx|].
      eapply Forall_impl; [|exact Hx]. intros y Hy.
      exact (le_trans _ P _ _ _ Hrx Hy). }
    destruct (Sql.row_compare cl r x) eqn:E.
    + apply Hcons. unfold le. rewrite E. discriminate.
    + apply Hcons. unfold le. rewrite E. discriminate.
    + constructor; [now apply IH|].
      eapply Permutation_Forall; [symmetry; apply insert_row_perm|].
      constructor; [|exact Hx]. now apply gt_le.
Qed.

Lemma sort_rows_sorted (l : list Todo) :
  StronglySorted (le (Sql.row_compare cl)) (Sql.sort_rows cl l).
Proof.
  induction l as [|x l IH]; simpl; [constructor|].
  now apply insert_row_sorted.
Qed.

Lemma sort_rows_length (l : list Todo) :
  List.length (Sql.sort_rows cl l) = List.length l.
Proof. apply Permutation_length, sort_rows_perm. Qed.

End Sorting.

End SqlFacts.

(** ** The table *)
Module DbFacts.

Lemma get_Some (db : Db.Table) (i : Z) (t : Todo) :
  Db.get db i = Some t -> In t db /\ id t = i.
Proof.
  unfold Db.get. intros H. apply find_some in H.
  destruct H as [H1 H2]. split; [exact H1 | lia].
Qed.

Lemma get_None (db : Db.Table) (i : Z) :
  Db.get db i = None <-> ~ In i (map id db).
Proof.
  unfold Db.get. induction db as [|r db IH]; simpl.
  - tauto.
  - destruct (Z.eqb_spec (id r) i) as [E|E].
    + split; [discriminate | tauto].
    + rewrite IH. tauto.
Qed.

Lemma get_update (db : Db.Table) (t0 t : Todo) :
  Db.get db (id t) = Some t0 -> Db.get (Db.update db t) (id t) = Some t.
Proof.
  unfold Db.get, Db.update. induction db as [|r db IH]; simpl; [discriminate|].
  destruct (Z.eqb_spec (id r) (id t)) as [E|E]; simpl.
  - now rewrite Z.eqb_refl.
  - destruct (Z.eqb_spec (id r) (id t)); [contradiction | exact IH].
Qed.

Lemma update_ids (db : Db.Table) (t : Todo) :
  map id (Db.update db t) = map id db.
Proof.
  unfold Db.update. rewrite map_map. apply map_ext.
  intros r. destruct (Z.eqb_spec (id r) (id t)); congruence.
Qed.

Lemma max_bound (x : Z) (l : list Z) :
  x <= fold_right Z.max x l /\ Forall (fun y => y <= fold_right Z.max x l) l.
Proof.
  induction l as [|y l [IH1 IH2]]; simpl; split; try lia; constructor; try lia.
  eapply Forall_impl; [|exact IH2]. simpl. intros; lia.
Qed.

Lemma next_id_fresh (db : Db.Table) (r : Todo) :
  In r db -> id r < Db.next_id db.
Proof.
  destruct db as [|r0 db]; [simpl; tauto|].
  unfold Db.next_id.
  destruct (max_bound (id r0) (map id db)) as [H1 H2].
  intros [<-|H]; [lia|].
  rewrite Forall_forall in H2.
  specialize (H2 (id r) (in_map id _ _ H)). lia.
Qed.

Lemma next_id_not_in (db : Db.Table) : ~ In (Db.next_id db) (map id db).
Proof.
  rewrite in_map_iff. intros (r & E & H).
  apply next_id_fresh in H. lia.
Qed.

Lemma get_add (db : Db.Table) (t : Todo) :
  ~ In (id t) (map id db) -> Db.get (db ++ [t]) (id t) = Some t.
Proof.
  unfold Db.get. induction db as [|r db IH]; simpl; intros H.
  - now rewrite Z.eqb_refl.
  - destruct (Z.eqb_spec (id r) (id t)); [tauto|]. apply IH. tauto.
Qed.

Lemma pk_unique_NoDup (db : Db.Table) :
  Db.pk_unique db = true -> NoDup (map id db).
Proof.
  induction db as [|r db IH]; simpl; [constructor|].
  rewrite andb_true_iff, forallb_forall. intros [H1 H2].
  constructor; [|now apply IH].
  rewrite in_map_iff. intros (r' & E & H).
  specialize (H1 r' H). rewrite E, Z.eqb_refl in H1. discriminate.
Qed.

Lemma NoDup_pk_unique (db : Db.Table) :
  NoDup (map id db) -> Db.pk_unique db = true.
Proof.
  induction db as [|r db IH]; simpl; [reflexivity|].
  intros H. inversion H as [|? ? Hn Hd]; subst.
  rewrite (IH Hd), andb_true_r. apply forallb_forall.
  intros r' Hr'. destruct (Z.eqb_spec (id r') (id r)) as [E|E]; [|reflexivity].
  exfalso. apply Hn. rewrite <- E. now apply in_map.
Qed.

Lemma NoDup_ids_filter (f : Todo -> bool) (db : Db.Table) :
  NoDup (map id db) -> NoDup (map id (filter f db)).
Proof.
  induction db as [|r db IH]; simpl; [auto|].
  intros H. inversion H as [|? ? Hn Hd]; subst.
  destruct (f r); simpl; [|now apply IH].
  constructor; [|now apply IH].
  rewrite in_map_iff. intros (r' & E & Hr'). apply filter_In in Hr'.
  apply Hn. rewrite <- E. apply in_map. tauto.
Qed.

(** The primary key constraint survives an insert, an update and a delete. *)
Lemma pk_unique_add (db : Db.Table) (new : Z -> Todo) :
  (forall i, id (new i) = i) ->
  Db.pk_unique db = true -> Db.pk_unique (snd (Db.add db new)) = true.
Proof.
  intros Hnew H. apply NoDup_pk_unique. simpl. rewrite map_app. simpl.
  apply NoDup_app.
  - now apply pk_unique_NoDup.
  - repeat constructor. simpl. tauto.
  - intros i Hi [E|[]]. rewrite Hnew in E. subst i.
    exact (next_id_not_in db Hi).
Qed.

Lemma pk_unique_update (db : Db.Table) (t : Todo) :
  Db.pk_unique db = true -> Db.pk_unique (Db.update db t) = true.
Proof.
  intros H. apply NoDup_pk_unique. rewrite update_ids.
  now apply pk_unique_NoDup.
Qed.

Lemma pk_unique_delete (db : Db.Table) (i : Z) :
  Db.pk_unique db = true -> Db.pk_unique (Db.delete db i) = true.
Proof.
  intros H. apply NoDup_pk_unique. unfold Db.delete.
  now apply NoDup_ids_filter, pk_unique_NoDup.
Qed.

(** A deleted identifier is carried by no row. *)
Lemma get_delete (db : Db.Table) (i : Z) : Db.get (Db.delete db i) i = None.
Proof.
  apply get_None. unfold Db.delete. rewrite in_map_iff.
  intros (r & E & H). apply filter_In in H. destruct H as [_ H].
  rewrite E, Z.eqb_refl in H. discriminate.
Qed.

End DbFacts.

(** ** Validation of request bodies *)

Lemma title_ok_iff (s : str) : title_ok s = true <-> 1 <= Str.len s <= 200.
Proof. unfold title_ok. rewrite andb_true_iff, !Z.leb_le. tauto. Qed.

Lemma validate_TodoUpdate_Some (b : UpdateBody) :
  (forall s, ub_title b = Value s -> 1 <= Str.len s <= 200) ->
  validate_TodoUpdate b =
    Some (mkTodoUpdate (field_value (ub_title b)) (field_value (ub_description b))
                       (field_value (ub_deadline b)) (field_value (ub_completed b))).
Proof.
  unfold validate_TodoUpdate. intros H.
  destruct (ub_title b) as [| |s]; try reflexivity.
  destruct (title_ok_iff s) as [_ ->]; auto.
Qed.

Lemma validate_TodoUpdate_inv (b : UpdateBody) (p : TodoUpdate) :
  validate_TodoUpdate b = Some p ->
  u_title p = field_value (ub_title b) /\
  u_description p = field_value (ub_description b) /\
  u_deadline p = field_value (ub_deadline b) /\
  u_completed p = field_value (ub_completed b).
Proof.
  unfold validate_TodoUpdate.
  destruct (match ub_title b with Value s => title_ok s | _ => true end);
    [|discriminate].
  intros H. injection H as <-. simpl. auto.
Qed.

(** ** The handlers *)

(** What [update_todo] does to a row it finds. *)
Lemma update_todo_found (now : datetime) (i : Z) (p : TodoUpdate)
  (db : Db.Table) (t : Todo) :
  Db.get db i = Some t ->
  exists t',
    update_todo now i p db = (Ok 200 t', Db.update db t') /\
    Db.get (Db.update db t') i = Some t' /\
    id t' = i /\
    title t' = match u_title p with Some s => Str.strip s | None => title t end /\
    description t' =
      match u_description p with Some s => Some s | None => description t end /\
    deadline t' = u_deadline p /\
    completed t' = match u_completed p with Some c => c | None => completed t end /\
    created_at t' = created_at t /\
    updated_at t' = now.
Proof.
  intros H. unfold update_todo. rewrite H.
  destruct (DbFacts.get_Some _ _ _ H) as [_ Hid].
  eexists. split; [reflexivity|].
  assert (E : negb (is_None (u_deadline p)) || is_None (u_deadline p) = true)
    by (destruct (u_deadline p); reflexivity).
  rewrite E.
  match goal with |- Db.get (Db.update _ ?x) _ = _ /\ _ =>
    assert (Hx : id x = i)
      by (destruct (u_title p), (u_description p), (u_completed p); exact Hid)
  end.
  split.
  { rewrite <- Hx at 1. rewrite <- Hx in H. eapply DbFacts.get_update. exact H. }
  split; [exact Hx|].
  destruct (u_title p), (u_description p), (u_completed p); simpl; auto 10.
Qed.

(** X9: each handler hands back a table that satisfies the primary key
    constraint. *)
Lemma handlers_keep_primary_key (now : datetime) (i : Z) (c : TodoCreate)
  (u : TodoUpdate) (db : Db.Table) :
  Db.pk_unique db = true ->
  Db.pk_unique (snd (create_todo now c db)) = true /\
  Db.pk_unique (snd (get_todo i db)) = true /\
  Db.pk_unique (snd (update_todo now i u db)) = true /\
  Db.pk_unique (snd (delete_todo i db)) = true.
Proof.
  intros H. repeat split.
  - unfold create_todo.
    apply (DbFacts.pk_unique_add db
             (fun j => mkTodo j (Str.strip (c_title c)) (c_description c)
                              (c_deadline c) false now now));
      [reflexivity | exact H].
  - unfold get_todo. destruct (Db.get db i); exact H.
  - destruct (Db.get db i) as [t|] eqn:G.
    + destruct (update_todo_found now i u db t G) as (t' & -> & _).
      now apply DbFacts.pk_unique_update.
    + unfold update_todo. rewrite G. exact H.
  - unfold delete_todo. destruct (Db.get db i); [|exact H].
    now apply DbFacts.pk_unique_delete.
Qed.

(** An update of an identifier that is not stored never changes the table:
    the route answers 422 when the body fails validation and 404
    otherwise. *)
Lemma PUT_todo_missing_id (now : datetime) (i : Z) (body : UpdateBody)
  (db : Db.Table) :
  ~ In i (map id db) ->
  PUT_todo now i body db =
    (match validate_TodoUpdate body with
     | Some _ => NotFoundError
     | None => ValidationError
     end, db).
Proof.
  intros H. apply DbFacts.get_None in H. unfold PUT_todo, update_todo.
  destruct (validate_TodoUpdate body); [rewrite H|]; reflexivity.
Qed.

(** C7: for an identifier that the store can hold (a signed 64-bit integer)
    and that no stored row carries, fetching, updating and deleting each
    answer 404 "Todo not found" and hand the table back as it was. *)
Theorem missing_id_is_not_found (db : Db.Table) (todo_id : Z) (now : datetime)
  (payload : TodoUpdate) :
  int64 todo_id ->
  ~ In todo_id (map id db) ->
  get_todo todo_id db = (Error 404 "Todo not found", db) /\
  update_todo now todo_id payload db = (Error 404 "Todo not found", db) /\
  delete_todo todo_id db = (Error 404 "Todo not found", db).
Proof.
  intros _ H. apply DbFacts.get_None in H.
  unfold get_todo, update_todo, delete_todo. rewrite H. auto.
Qed.

Lemma missing_id_is_not_found_witness :
  get_todo 9 (sample_table 3) = (Error 404 "Todo not found", sample_table 3) /\
  update_todo 50 9 (mkTodoUpdate None None None (Some true)) (sample_table 3)
    = (Error 404 "Todo not found", sample_table 3) /\
  delete_todo 9 (sample_table 3) = (Error 404 "Todo not found", sample_table 3).
Proof.
  apply (missing_id_is_not_found (sample_table 3) 9 50).
  - unfold int64. lia.
  - simpl. intros [H|[H|[H|[]]]]; discriminate H.
Defined.



(** C6: on a row whose deadline is set, an update whose body gives
    [deadline] as [null] succeeds and leaves the stored deadline empty. *)
Theorem update_null_deadline_clears (now : datetime) (todo_id : Z)
  (body : UpdateBody) (db : Db.Table) (t : Todo) (d : datetime) :
  Db.get db todo_id = Some t ->
  deadline t = Some d ->
  ub_deadline body = Null ->
  (forall s, ub_title body = Value s -> 1 <= Str.len s <= 200) ->
  exists t' db',
    PUT_todo now todo_id body db = (Ok 200 t', db') /\
    Db.get db' todo_id = Some t' /\
    deadline t' = None.
Proof.
  intros G _ Hn Hv. unfold PUT_todo.
  rewrite (validate_TodoUpdate_Some body Hv).
  destruct (update_todo_found now todo_id
              (mkTodoUpdate (field_value (ub_title body))
                 (field_value (ub_description body))
                 (field_value (ub_deadline body))
                 (field_value (ub_completed body))) db t G)
    as (t' & E & Hg & _ & _ & _ & Hdl & _).
  exists t', (Db.update db t'). split; [exact E|]. split; [exact Hg|].
  rewrite Hdl. simpl. now rewrite Hn.
Qed.

Lemma update_null_deadline_clears_witness :
  exists t' db',
    PUT_todo 50 1 (mkUpdateBody Absent Absent Null Absent) (sample_table 2)
      = (Ok 200 t', db') /\
    Db.get db' 1 = Some t' /\
    deadline t' = None.
Proof.
  apply (update_null_deadline_clears 50 1
           (mkUpdateBody Absent Absent Null Absent) (sample_table 2)
           (sample_row 1) 999).
  - reflexivity.
  - reflexivity.
  - reflexivity.
  - simpl. intros s H. discriminate H.
Defined.

(** The members other than [deadline] are kept when the body leaves them
    out. *)
Lemma update_keeps_absent_members (now : datetime) (todo_id : Z)
  (body : UpdateBody) (db : Db.Table) (t : Todo) :
  Db.get db todo_id = Some t ->
  (forall s, ub_title body = Value s -> 1 <= Str.len s <= 200) ->
  exists t' db',
    PUT_todo now todo_id body db = (Ok 200 t', db') /\
    (ub_title body = Absent -> title t' = title t) /\
    (ub_description body = Absent -> description t' = description t) /\
    (ub_completed body = Absent -> completed t' = completed t) /\
    updated_at t' = now.
Proof.
  intros G Hv. unfold PUT_todo. rewrite (validate_TodoUpdate_Some body Hv).
  destruct (update_todo_found now todo_id
              (mkTodoUpdate (field_value (ub_title body))
                 (field_value (ub_description body))
                 (field_value (ub_deadline body))
                 (field_value (ub_completed body))) db t G)
    as (t' & E & _ & _ & Ht & Hd & _ & Hc & _ & Hu).
  exists t', (Db.update db t'). split; [exact E|]. simpl in *.
  repeat split; auto.
  - intros H. now rewrite Ht, H.
  - intros H. now rewrite Hd, H.
  - intros H. now rewrite Hc, H.
Qed.

(** C1: on a row with a deadline, the update [{"completed": true}] keeps the
    title and the description and refreshes [updated_at], and it empties the
    deadline although the body does not mention it. *)
Theorem update_completed_only_clears_deadline :
  let t := mkTodo 1 ("Buy milk" : str) (Some ("2 litres" : str)) (Some 100)
                  false 10 10 in
  let body := mkUpdateBody Absent Absent Absent (Value true) in
  exists t',
    PUT_todo 20 1 body [t] = (Ok 200 t', [t']) /\
    title t' = title t /\
    description t' = description t /\
    completed t' = true /\
    updated_at t' = 20 /\
    deadline t = Some 100 /\
    deadline t' = None.
Proof.
  simpl. eexists. split; [reflexivity|]. simpl. repeat split.
Qed.

(** C2: a title that is one space passes the length check of the request
    body and the row is stored, with the empty title; the empty string is
    refused with 422 and nothing is stored. *)
Theorem create_blank_title_is_stored (now : datetime) (db : Db.Table) :
  Str.strip (" " : str) = [] /\
  (exists t,
     POST_todos now (mkCreateBody (Value (" " : str)) Absent Absent) db
       = (Ok 201 t, db ++ [t]) /\
     title t = []) /\
  POST_todos now (mkCreateBody (Value ("" : str)) Absent Absent) db
    = (Error 422 "validation error", db).
Proof.
  split; [reflexivity|]. split; [|reflexivity].
  eexists. split; reflexivity.
Qed.

(** C5, as the code has it: a create request whose title has at most 200
    characters as it is sent, one of them not a blank, is answered 201 with
    the row that is now stored under a fresh identifier.  Its title is the
    title sent without the blanks at its two ends: the title sent is blanks,
    then the stored title, then blanks, and the stored title neither begins
    nor ends with a blank, so it has between 1 and 200 characters.  The row
    is not completed, and [created_at] and [updated_at] are the time of the
    call. *)
Theorem create_returns_stored_row (now : datetime) (body : CreateBody)
  (db : Db.Table) (s : str) :
  cb_title body = Value s ->
  Str.len s <= 200 ->
  existsb (fun c => negb (Str.isspace c)) s = true ->
  exists t,
    POST_todos now body db = (Ok 201 t, db ++ [t]) /\
    Db.get (db ++ [t]) (id t) = Some t /\
    ~ In (id t) (map id db) /\
    (exists l r, s = l ++ title t ++ r /\
                 forallb Str.isspace l = true /\
                 forallb Str.isspace r = true) /\
    blank_free_ends (title t) /\
    1 <= Str.len (title t) <= 200 /\
    description t = field_value (cb_description body) /\
    deadline t = field_value (cb_deadline body) /\
    completed t = false /\
    created_at t = updated_at t /\
    updated_at t = now.
Proof.
  intros Ht Hl Hn.
  assert (Hlen : 1 <= Str.len s <= 200).
  { split; [|exact Hl]. unfold Str.len. destruct s; [discriminate Hn|].
    simpl List.length. lia. }
  unfold POST_todos, validate_TodoCreate. rewrite Ht.
  destruct (title_ok_iff s) as [_ ->]; [|exact Hlen].
  unfold create_todo, Db.add. simpl.
  eexists. split; [reflexivity|]. simpl.
  split.
  { match goal with |- Db.get (_ ++ [?r]) _ = _ =>
      apply (DbFacts.get_add db r) end.
    simpl. apply DbFacts.next_id_not_in. }
  split; [apply DbFacts.next_id_not_in|].
  split; [apply StripFacts.strip_split|].
  split; [apply StripFacts.strip_ends|].
  split; [|auto 6].
  pose proof (StripFacts.strip_len s) as H1.
  pose proof (StripFacts.strip_nonempty s Hn) as H2.
  unfold Str.len in *. destruct (Str.strip s); [congruence|].
  simpl List.length in *. lia.
Qed.

Example strip_buy_milk : Str.strip ("  Buy milk  " : str) = ("Buy milk" : str).
Proof. reflexivity. Qed.

Lemma create_returns_stored_row_witness :
  exists t,
    POST_todos 7 (mkCreateBody (Value ("  Buy milk  " : str)) Absent (Value 90))
               (sample_table 2)
      = (Ok 201 t, sample_table 2 ++ [t]) /\
    title t = ("Buy milk" : str) /\
    completed t = false /\
    created_at t = updated_at t.
Proof.
  destruct (create_returns_stored_row 7
              (mkCreateBody (Value ("  Buy milk  " : str)) Absent (Value 90))
              (sample_table 2) ("  Buy milk  " : str))
    as (t & E & _ & _ & _ & _ & _ & _ & _ & Hc & Hcu & _).
  - reflexivity.
  - cbn. lia.
  - reflexivity.
  - exists t. split; [exact E|]. split; [|split; [exact Hc | exact Hcu]].
    cbv in E. injection E as <-. reflexivity.
Defined.

(** C5, as it is stated: a title of one space and 200 letters has 200
    characters once it is trimmed, so the request is a valid one, and it is
    answered 422 with nothing stored: the length is checked on the title as
    it is sent. *)
Lemma create_refuses_padded_title :
  let m : str := repeat 97%N 200 in
  let s : str := 32%N :: m in
  Str.strip s = m /\
  blank_free_ends m /\
  Str.len m = 200 /\
  Str.isspace 32 = true /\
  POST_todos 7 (mkCreateBody (Value s) Absent Absent) (sample_table 2)
    = (Error 422 "validation error", sample_table 2) /\
  ~ (exists t db',
       POST_todos 7 (mkCreateBody (Value s) Absent Absent) (sample_table 2)
       = (Ok 201 t, db')).
Proof.
  cbv zeta.
  assert (E : POST_todos 7 (mkCreateBody (Value (32%N :: repeat 97%N 200))
                                         Absent Absent) (sample_table 2)
              = (Error 422 "validation error", sample_table 2))
    by (vm_compute; reflexivity).
  split; [vm_compute; reflexivity|].
  split.
  { split; intros c H; vm_compute in H; injection H as <-; reflexivity. }
  split; [vm_compute; reflexivity|].
  split; [reflexivity|].
  split; [exact E|].
  intros (t & db' & H). pose proof (eq_trans (eq_sym E) H) as X.
  discriminate X.
Qed.

(** ** Query parameters of the listing *)

Lemma existsb_eqb_false (s : str) (l : list str) :
  ~ In s l -> existsb (Str.eqb s) l = false.
Proof.
  induction l as [|x l IH]; simpl; [reflexivity|]. intros H.
  rewrite IH by tauto.
  destruct (StrFacts.eqb_neq s x) as [_ ->]; [reflexivity|].
  intros E. apply H. left. now symmetry.
Qed.

Lemma Query_str_default (d : str) (alts : list str) (v : option str) :
  In d alts ->
  Query_str d alts v =
  Query_str d alts (Some (match v with Some s => s | None => d end)).
Proof.
  intros H. destruct v as [s|]; simpl; [reflexivity|].
  assert (E : existsb (Str.eqb d) alts = true).
  { apply existsb_exists. exists d. split; [exact H|].
    now apply StrFacts.eqb_eq. }
  now rewrite E.
Qed.

Ltac case_queries :=
  repeat match goal with
         | |- context [match Query_str ?d ?a ?v with _ => _ end] =>
             destruct (Query_str d a v)
         | |- context [match Query_int ?d ?lo ?hi ?v with _ => _ end] =>
             destruct (Query_int d lo hi v)
         end;
  reflexivity.

(** C8: the listing answers 422, with the table untouched and whatever the
    table holds, when [sort_by] is none of deadline, created_at, title, when
    [order] is neither asc nor desc, when [limit] is below 1 or above 200, and
    when [offset] is negative; a parameter that is left out acts as its
    default (deadline, asc, 50, 0). *)
Theorem list_query_validation (q : ListQuery) (db : Db.Table) :
  (forall s, q_sort_by q = Some s -> ~ In s sort_keys ->
     GET_todos q db = (Error 422 "validation error", db)) /\
  (forall s, q_order q = Some s -> ~ In s directions ->
     GET_todos q db = (Error 422 "validation error", db)) /\
  (forall n, q_limit q = Some n -> n < 1 \/ 200 < n ->
     GET_todos q db = (Error 422 "validation error", db)) /\
  (forall n, q_offset q = Some n -> n < 0 ->
     GET_todos q db = (Error 422 "validation error", db)) /\
  GET_todos q db = GET_todos (with_defaults q) db /\
  GET_todos (mkListQuery None None None None) db
    = (list_todos db "deadline" "asc" 50 0, db).
Proof.
  unfold GET_todos. repeat split.
  - intros s E H. rewrite E. unfold Query_str at 1.
    pose proof (existsb_eqb_false s sort_keys H) as B. unfold sort_keys in B.
    rewrite B. reflexivity.
  - intros s E H. rewrite E. unfold Query_str at 2.
    pose proof (existsb_eqb_false s directions H) as B. unfold directions in B.
    rewrite B. case_queries.
  - intros n E H. rewrite E. unfold Query_int.
    assert (B : (1 <=? n) && (n <=? 200) = false).
    { apply andb_false_iff. rewrite !Z.leb_gt. lia. }
    rewrite B. case_queries.
  - intros n E H. rewrite E. unfold Query_int at 2.
    assert (B : (0 <=? n) && true = false).
    { apply andb_false_iff. rewrite Z.leb_gt. lia. }
    rewrite B. case_queries.
  - unfold with_defaults. cbn [q_sort_by q_order q_limit q_offset].
    rewrite <- (Query_str_default "deadline" _ (q_sort_by q)) by (simpl; auto).
    rewrite <- (Query_str_default "asc" _ (q_order q)) by (simpl; auto).
    destruct (q_limit q), (q_offset q); reflexivity.
Qed.

Lemma list_query_validation_witness :
  let q := mkListQuery (Some ("priority" : str)) (Some ("up" : str))
                       (Some 0) (Some (-1)) in
  GET_todos q (sample_table 3) = (Error 422 "validation error", sample_table 3) /\
  GET_todos (mkListQuery None None (Some 201) None) (sample_table 3)
    = (Error 422 "validation error", sample_table 3).
Proof.
  pose (q := mkListQuery (Some ("priority" : str)) (Some ("up" : str))
                         (Some 0) (Some (-1))).
  destruct (list_query_validation q (sample_table 3))
    as (Hs & Ho & Hl & Hf & _).
  destruct (list_query_validation (mkListQuery None None (Some 201) None)
              (sample_table 3)) as (_ & _ & Hl' & _).
  split.
  - assert (E1 := Hs ("priority" : str) eq_refl).
    assert (E2 := Ho ("up" : str) eq_refl).
    assert (E3 := Hl 0 eq_refl).
    assert (E4 := Hf (-1) eq_refl).
    apply E1. simpl. intros [H|[H|[H|[]]]]; discriminate H.
  - apply (Hl' 201 eq_refl). right. lia.
Defined.

(** ** Sorted listings and pages *)
Section SortedLists.

Context {A : Type}.
Variables R R' : A -> A -> Prop.

Lemma StronglySorted_impl (l : list A) :
  (forall a b, R a b -> R' a b) -> StronglySorted R l -> StronglySorted R' l.
Proof.
  intros H. induction 1 as [|a l Hl IH Ha]; constructor; auto.
  eapply Forall_impl; [|exact Ha]. auto.
Qed.

Lemma StronglySorted_skipn (n : nat) (l : list A) :
  StronglySorted R l -> StronglySorted R (skipn n l).
Proof.
  revert l. induction n as [|n IH]; intros l H; simpl; [exact H|].
  destruct l as [|a l]; [constructor|].
  apply IH. now apply StronglySorted_inv in H.
Qed.

Lemma StronglySorted_firstn (n : nat) (l : list A) :
  StronglySorted R l -> StronglySorted R (firstn n l).
Proof.
  revert l. induction n as [|n IH]; intros l H; simpl; [constructor|].
  destruct l as [|a l]; [constructor|].
  apply StronglySorted_inv in H. destruct H as [Hl Ha].
  constructor; [now apply IH|].
  rewrite Forall_forall in *. intros x Hx. apply Ha.
  rewrite <- (firstn_skipn n l). apply in_or_app. now left.
Qed.

End SortedLists.

Lemma NoDup_app_disjoint {A : Type} (l1 l2 : list A) :
  NoDup (l1 ++ l2) -> forall x, In x l1 -> ~ In x l2.
Proof.
  induction l1 as [|a l1 IH]; simpl; intros H x; [tauto|].
  inversion H as [|? ? Hn Hd]; subst.
  intros [<-|Hx] H2.
  - apply Hn. apply in_or_app. now right.
  - exact (IH Hd x Hx H2).
Qed.

Lemma paginate_sorted (R : Todo -> Todo -> Prop) (lim off : option Z)
  (l : list Todo) :
  StronglySorted R l -> StronglySorted R (Sql.paginate lim off l).
Proof.
  intros H. unfold Sql.paginate.
  assert (H' : StronglySorted R
                 match off with Some m => skipn (Z.to_nat m) l | None => l end)
    by (destruct off; [now apply StronglySorted_skipn | exact H]).
  destruct lim as [n|]; [|exact H'].
  destruct (n <? 0); [exact H'|]. now apply StronglySorted_firstn.
Qed.

Lemma paginate_valid (limit offset : Z) (l : list Todo) :
  0 <= limit ->
  Sql.paginate (Some limit) (Some offset) l
  = firstn (Z.to_nat limit) (skipn (Z.to_nat offset) l).
Proof.
  intros H. unfold Sql.paginate.
  destruct (Z.ltb_spec limit 0); [lia | reflexivity].
Qed.

(** The order of two ORDER BY terms, a key and then the identifier, both in
    one direction. *)
Lemma le_key_then_id {K : Type} (cmp : K -> K -> comparison) (key : Todo -> K)
  (e : Todo -> Sql.value) (d : Sql.direction) :
  (forall x y, cmp x y = Eq -> x = y) ->
  (forall x y, cmp y x = CompOpp (cmp x y)) ->
  (forall a b, Sql.compare (e a) (e b) = cmp (key a) (key b)) ->
  forall a b, le (Sql.row_compare [(d, e); (d, Todo_id)]) a b ->
    match d with
    | Sql.asc =>
        cmp (key a) (key b) = Lt \/ (key a = key b /\ id a <= id b)
    | Sql.desc =>
        cmp (key b) (key a) = Lt \/ (key a = key b /\ id b <= id a)
    end.
Proof.
  intros Heq Hanti He a b H. unfold le in H. simpl in H. rewrite He in H.
  rewrite (Hanti (key a) (key b)).
  destruct (cmp (key a) (key b)) eqn:E; destruct d; simpl in *; auto;
    try congruence.
  - apply Heq in E. right. split; [exact E|].
    destruct (Z.compare_spec (id a) (id b)); try lia. congruence.
  - apply Heq in E. right. split; [exact E|].
    destruct (Z.compare_spec (id a) (id b)); simpl in H; try lia. congruence.
Qed.


Lemma lower_ascii_lowercase (s : str) : Str.lower s = ascii_lowercase s.
Proof.
  unfold Str.lower, ascii_lowercase. apply map_ext. intros c.
  unfold Str.lower_char, Str.between.
  destruct (N.leb_spec 65 c), (N.leb_spec c 90), (N.ltb_spec c 65),
    (N.ltb_spec 90 c); simpl; try reflexivity; lia.
Qed.




Example title_sort_ignores_case :
  let banana := mkTodo 1 ("banana" : str) None None false 0 0 in
  let apple := mkTodo 2 ("Apple" : str) None None false 1 1 in
  list_todos [banana; apple] "title" "asc" 50 0 = Ok 200 [apple; banana].
Proof. reflexivity. Qed.

(** ** Pagination *)

Lemma execute_apply_sort (sort_by order : str) (db : Db.Table) :
  Sql.execute db (apply_sort Sql.select_Todo sort_by order)
  = Sql.sort_rows
      (Sql.order_by_clauses (apply_sort Sql.select_Todo sort_by order)) db.
Proof.
  unfold Sql.execute, apply_sort.
  destruct (Str.eqb sort_by "created_at"), (Str.eqb sort_by "title");
    reflexivity.
Qed.

Lemma apply_sort_execute (sort_by order : str) (limit offset : Z)
  (db : Db.Table) :
  Sql.execute db
    (Sql.offset (Sql.limit (apply_sort Sql.select_Todo sort_by order) limit)
                offset)
  = Sql.paginate (Some limit) (Some offset)
      (Sql.execute db (apply_sort Sql.select_Todo sort_by order)).
Proof.
  rewrite execute_apply_sort. reflexivity.
Qed.

Lemma GET_todos_valid (sort_by order : str) (limit offset : Z) (db : Db.Table) :
  In sort_by sort_keys -> In order directions ->
  1 <= limit <= 200 -> 0 <= offset ->
  GET_todos (mkListQuery (Some sort_by) (Some order) (Some limit) (Some offset)) db
  = (Ok 200 (firstn (Z.to_nat limit)
               (skipn (Z.to_nat offset)
                  (Sql.execute db (apply_sort Sql.select_Todo sort_by order)))),
     db).
Proof.
  intros Hs Ho Hl Hf. unfold GET_todos.
  cbn [q_sort_by q_order q_limit q_offset]. unfold Query_str, Query_int.
  assert (E1 : existsb (Str.eqb sort_by) sort_keys = true)
    by (apply existsb_exists; exists sort_by; split;
        [exact Hs | now apply StrFacts.eqb_eq]).
  assert (E2 : existsb (Str.eqb order) directions = true)
    by (apply existsb_exists; exists order; split;
        [exact Ho | now apply StrFacts.eqb_eq]).
  unfold sort_keys in E1. unfold directions in E2. rewrite E1, E2.
  assert (E3 : (1 <=? limit) && (limit <=? 200) = true)
    by (apply andb_true_iff; rewrite !Z.leb_le; lia).
  assert (E4 : (0 <=? offset) && true = true)
    by (apply andb_true_iff; rewrite Z.leb_le; auto).
  rewrite E3, E4. unfold list_todos.
  rewrite apply_sort_execute, paginate_valid by lia. reflexivity.
Qed.

Lemma le_deadline_clauses (d : Sql.direction) (a b : Todo) :
  le (Sql.row_compare
        [(d, fun t => match deadline t with
                      | None => Sql.INTEGER 1
                      | Some _ => Sql.INTEGER 0
                      end);
         (d, Todo_deadline); (d, Todo_id)]) a b ->
  match d with
  | Sql.asc =>
      match deadline a, deadline b with
      | Some x, Some y => x < y \/ (x = y /\ id a <= id b)
      | Some _, None => True
      | None, Some _ => False
      | None, None => id a <= id b
      end
  | Sql.desc =>
      match deadline a, deadline b with
      | Some x, Some y => y < x \/ (x = y /\ id b <= id a)
      | Some _, None => False
      | None, Some _ => True
      | None, None => id b <= id a
      end
  end.
Proof.
  unfold le, Todo_deadline, Todo_id. simpl. intros H.
  destruct (deadline a) as [x|], (deadline b) as [y|], d; simpl in *; auto;
    try congruence;
    try (destruct (Z.compare_spec x y); simpl in *; try lia; try congruence);
    destruct (Z.compare_spec (id a) (id b)); simpl in *;
    try lia; try congruence.
Qed.

Lemma execute_sorted_by_key {K : Type} (cmp : K -> K -> comparison)
  (key : Todo -> K) (e : Todo -> Sql.value) (sort_by order : str)
  (db : Db.Table) :
  (forall x y, cmp x y = Eq -> x = y) ->
  (forall x y, cmp y x = CompOpp (cmp x y)) ->
  (forall a b, Sql.compare (e a) (e b) = cmp (key a) (key b)) ->
  In order directions ->
  (forall o, Sql.order_by_clauses (apply_sort Sql.select_Todo sort_by o)
             = let d := if Str.eqb o "asc" then Sql.asc else Sql.desc in
               [(d, e); (d, Todo_id)]) ->
  StronglySorted (in_order order (fun x y => cmp x y = Lt) key)
    (Sql.execute db (apply_sort Sql.select_Todo sort_by order)).
Proof.
  intros Heq Hanti He Ho Hcl. rewrite execute_apply_sort, Hcl.
  eapply StronglySorted_impl; [|apply SqlFacts.sort_rows_sorted].
  intros a b H. apply (le_key_then_id cmp key e _ Heq Hanti He) in H.
  unfold in_order.
  destruct Ho as [<-|[<-|[]]]; [left | right]; split; auto.
Qed.

Lemma execute_sorted_by_deadline (order : str) (db : Db.Table) :
  In order directions ->
  StronglySorted (deadline_order order)
    (Sql.execute db (apply_sort Sql.select_Todo "deadline" order)).
Proof.
  intros Ho. rewrite execute_apply_sort.
  eapply StronglySorted_impl; [|apply SqlFacts.sort_rows_sorted].
  intros a b H. unfold deadline_order.
  destruct Ho as [<-|[<-|[]]]; apply le_deadline_clauses in H; auto.
Qed.

Lemma execute_listing_order (sort_by order : str) (db : Db.Table) :
  In sort_by sort_keys -> In order directions ->
  StronglySorted (listing_order sort_by order)
    (Sql.execute db (apply_sort Sql.select_Todo sort_by order)).
Proof.
  intros Hs Ho. unfold listing_order.
  destruct Hs as [<-|[<-|[<-|[]]]].
  - eapply StronglySorted_impl;
      [|exact (execute_sorted_by_deadline order db Ho)].
    intros a b H. right. right. auto.
  - eapply StronglySorted_impl;
      [|apply (execute_sorted_by_key Z.compare created_at Todo_created_at
                 "created_at" order db);
        auto using Z.compare_eq, Z.compare_antisym].
    intros a b H. left. auto.
  - eapply StronglySorted_impl;
      [|apply (execute_sorted_by_key Str.compare
                 (fun t => ascii_lowercase (title t)) lower_Todo_title
                 "title" order db); auto].
    + intros a b H. right. left. auto.
    + intros x y. apply StrFacts.compare_eq_iff.
    + apply (cmp_antisym _ StrFacts.preorder_str_compare).
    + intros a b. unfold lower_Todo_title. simpl.
      now rewrite !lower_ascii_lowercase.
Qed.

(** C10: with the sort parameters fixed, the rows of the table sorted in the
    order of those parameters are one sequence, and a page with an offset
    from 0 to 2^63 - 1 is that sequence without its first [offset] rows, cut
    after [limit] rows.  On a table of 300 rows the pages (limit 200, offset
    0) and (limit 200, offset 200) have 200 and 100 rows, no identifier occurs
    in both, and the first followed by the second is the whole sorted
    sequence. *)
Theorem pages_partition_the_listing (db : Db.Table) (sort_by order : str) :
  In sort_by sort_keys ->
  In order directions ->
  let page limit offset :=
    GET_todos (mkListQuery (Some sort_by) (Some order)
                           (Some limit) (Some offset)) db in
  let sorted := Sql.execute db (apply_sort Sql.select_Todo sort_by order) in
  Permutation sorted db /\
  StronglySorted (listing_order sort_by order) sorted /\
  (forall limit offset, 1 <= limit <= 200 -> 0 <= offset < 2 ^ 63 ->
     exists p,
       page limit offset = (Ok 200 p, db) /\
       p = firstn (Z.to_nat limit) (skipn (Z.to_nat offset) sorted) /\
       (List.length p <= Z.to_nat limit)%nat) /\
  (Db.pk_unique db = true -> List.length db = 300%nat ->
     exists p1 p2,
       page 200 0 = (Ok 200 p1, db) /\
       page 200 200 = (Ok 200 p2, db) /\
       List.length p1 = 200%nat /\
       List.length p2 = 100%nat /\
       p1 ++ p2 = sorted /\
       (forall a b, In a p1 -> In b p2 -> id a <> id b)).
Proof.
  intros Hs Ho page sorted.
  assert (P : Permutation sorted db).
  { unfold sorted. rewrite execute_apply_sort.
    apply SqlFacts.sort_rows_perm. }
  split; [exact P|].
  split; [now apply execute_listing_order|]. split.
  - intros limit offset Hl Hf. eexists. split; [|split; [reflexivity|]].
    + unfold page. apply GET_todos_valid; auto. lia.
    + rewrite length_firstn. lia.
  - intros Hpk Hlen.
    assert (L : List.length sorted = 300%nat)
      by (rewrite (Permutation_length P); exact Hlen).
    exists (firstn 200 sorted), (skipn 200 sorted).
    assert (L2 : List.length (skipn 200 sorted) = 100%nat)
      by (rewrite length_skipn, L; reflexivity).
    split; [|split; [|split; [|split; [|split]]]].
    + unfold page. rewrite GET_todos_valid by (auto; lia). reflexivity.
    + unfold page. rewrite GET_todos_valid by (auto; lia).
      do 2 f_equal.
      change (firstn 200 (skipn 200 sorted) = skipn 200 sorted).
      apply firstn_all2. lia.
    + rewrite length_firstn, L. reflexivity.
    + exact L2.
    + apply firstn_skipn.
    + intros a b Ha Hb E.
      assert (N : NoDup (map id (firstn 200 sorted ++ skipn 200 sorted))).
      { rewrite firstn_skipn.
        apply (Permutation_NoDup (l := map id db));
          [apply Permutation_map; now symmetry
          | now apply DbFacts.pk_unique_NoDup]. }
      rewrite map_app in N.
      eapply NoDup_app_disjoint; [exact N | apply in_map; exact Ha |].
      rewrite E. now apply in_map.
Qed.

Lemma pages_partition_the_listing_witness :
  let db := sample_table 300 in
  let page limit offset :=
    GET_todos (mkListQuery (Some ("deadline" : str)) (Some ("asc" : str))
                           (Some limit) (Some offset)) db in
  let sorted := Sql.execute db (apply_sort Sql.select_Todo "deadline" "asc") in
  StronglySorted (listing_order "deadline" "asc") sorted /\
  (exists p, page 200 100 = (Ok 200 p, db) /\
             p = firstn (Z.to_nat 200) (skipn (Z.to_nat 100) sorted) /\
             (List.length p <= Z.to_nat 200)%nat) /\
  exists p1 p2,
    page 200 0 = (Ok 200 p1, db) /\
    page 200 200 = (Ok 200 p2, db) /\
    List.length p1 = 200%nat /\
    List.length p2 = 100%nat /\
    p1 ++ p2 = sorted /\
    (forall a b, In a p1 -> In b p2 -> id a <> id b).
Proof.
  intros db page sorted.
  destruct (pages_partition_the_listing db "deadline" "asc")
    as (_ & S & G & H).
  - simpl. left. reflexivity.
  - simpl. left. reflexivity.
  - split; [exact S|]. split.
    + apply G; lia.
    + apply H.
      * vm_compute. reflexivity.
      * vm_compute. reflexivity.
Defined.

(** ** The default sort *)

(** Ascending, a row without a deadline is followed by such rows only. *)
Lemma deadline_asc_nulls_last (db : Db.Table) :
  StronglySorted (fun a b => deadline a = None -> deadline b = None)
    (Sql.execute db (apply_sort Sql.select_Todo "deadline" "asc")).
Proof.
  eapply StronglySorted_impl; [|apply SqlFacts.sort_rows_sorted].
  simpl. unfold le. simpl. intros a b H Ha. rewrite Ha in H.
  destruct (deadline b); [exfalso; apply H; reflexivity | reflexivity].
Qed.

(** Descending, it is a row with a deadline that is followed by such rows
    only: the rows without a deadline come first. *)
Lemma deadline_desc_nulls_first (db : Db.Table) :
  StronglySorted (fun a b => deadline b = None -> deadline a = None)
    (Sql.execute db (apply_sort Sql.select_Todo "deadline" "desc")).
Proof.
  eapply StronglySorted_impl; [|apply SqlFacts.sort_rows_sorted].
  simpl. unfold le. simpl. intros a b H Hb. rewrite Hb in H.
  destruct (deadline a); [exfalso; apply H; reflexivity | reflexivity].
Qed.

(** C3: with sort_by=deadline and order=desc the row without a deadline is
    listed before the row that has one; with order=asc it is listed after
    it. *)
Theorem deadline_desc_lists_null_first :
  let dated := mkTodo 1 ("pay rent" : str) None (Some 100) false 0 0 in
  let undated := mkTodo 2 ("tidy up" : str) None None false 1 1 in
  let q order := mkListQuery (Some ("deadline" : str)) (Some order) None None in
  GET_todos (q ("desc" : str)) [dated; undated]
    = (Ok 200 [undated; dated], [dated; undated]) /\
  GET_todos (q ("asc" : str)) [dated; undated]
    = (Ok 200 [dated; undated], [dated; undated]).
Proof. split; reflexivity. Qed.

(** * Further properties of the handlers *)

(** ** Rows that a write does not address *)

Lemma get_update_other (db : Db.Table) (t : Todo) (j : Z) :
  j <> id t -> Db.get (Db.update db t) j = Db.get db j.
Proof.
  intros H. unfold Db.get, Db.update.
  induction db as [|r db IH]; simpl; [reflexivity|].
  destruct (Z.eqb_spec (id r) (id t)) as [E|E].
  - destruct (Z.eqb_spec (id t) j); [congruence|].
    destruct (Z.eqb_spec (id r) j); [congruence | exact IH].
  - destruct (Z.eqb_spec (id r) j); [reflexivity | exact IH].
Qed.

Lemma get_delete_other (db : Db.Table) (i j : Z) :
  j <> i -> Db.get (Db.delete db i) j = Db.get db j.
Proof.
  intros H. unfold Db.get, Db.delete.
  induction db as [|r db IH]; simpl; [reflexivity|].
  destruct (Z.eqb_spec (id r) i) as [E|E]; simpl.
  - destruct (Z.eqb_spec (id r) j); [congruence | exact IH].
  - destruct (Z.eqb_spec (id r) j); [reflexivity | exact IH].
Qed.

Lemma In_update (db : Db.Table) (t r : Todo) :
  In r (Db.update db t) -> r = t \/ In r db.
Proof.
  unfold Db.update. rewrite in_map_iff. intros (r0 & E & H).
  destruct (id r0 =? id t); subst; auto.
Qed.

Lemma In_delete (db : Db.Table) (i : Z) (r : Todo) :
  In r (Db.delete db i) <-> In r db /\ id r <> i.
Proof.
  unfold Db.delete. rewrite filter_In.
  destruct (Z.eqb_spec (id r) i); simpl; intuition congruence.
Qed.

Lemma validate_TodoCreate_inv (b : CreateBody) (p : TodoCreate) :
  validate_TodoCreate b = Some p ->
  cb_title b = Value (c_title p) /\
  1 <= Str.len (c_title p) <= 200 /\
  c_description p = field_value (cb_description b) /\
  c_deadline p = field_value (cb_deadline b).
Proof.
  unfold validate_TodoCreate. destruct (cb_title b) as [| |s]; try discriminate.
  destruct (title_ok s) eqn:E; [|discriminate].
  intros H. injection H as <-. simpl. apply title_ok_iff in E. auto.
Qed.

Lemma title_ok_false (s : str) :
  Str.len s < 1 \/ 200 < Str.len s -> title_ok s = false.
Proof.
  intros H. unfold title_ok. apply andb_false_iff. rewrite !Z.leb_gt. lia.
Qed.

(** What a successful update answers, in terms of the body that was sent. *)
Lemma PUT_todo_Ok (now : datetime) (i : Z) (body : UpdateBody)
  (db db' : Db.Table) (status : Z) (t' : Todo) :
  PUT_todo now i body db = (Ok status t', db') ->
  exists t,
    Db.get db i = Some t /\
    db' = Db.update db t' /\
    status = 200 /\
    id t' = i /\
    title t' = match ub_title body with
               | Value s => Str.strip s
               | _ => title t
               end /\
    description t' = match ub_description body with
                     | Value s => Some s
                     | _ => description t
                     end /\
    completed t' = match ub_completed body with
                   | Value c => c
                   | _ => completed t
                   end /\
    created_at t' = created_at t /\
    updated_at t' = now /\
    (forall s, ub_title body = Value s -> 1 <= Str.len s <= 200).
Proof.
  unfold PUT_todo. destruct (validate_TodoUpdate body) as [p|] eqn:V;
    [|discriminate].
  assert (Hlen : forall s, ub_title body = Value s -> 1 <= Str.len s <= 200).
  { intros s E. unfold validate_TodoUpdate in V. rewrite E in V.
    destruct (title_ok s) eqn:T; [|discriminate]. now apply title_ok_iff. }
  destruct (validate_TodoUpdate_inv _ _ V) as (Ht & Hd & _ & Hc).
  destruct (Db.get db i) as [t|] eqn:G.
  - destruct (update_todo_found now i p db t G)
      as (t1 & -> & _ & Hid & Hti & Hde & _ & Hco & Hcr & Hup).
    intros H. injection H as <- <- <-. exists t.
    rewrite Hti, Hde, Hco, Ht, Hd, Hc.
    destruct (ub_title body), (ub_description body), (ub_completed body);
      simpl; auto 12.
  - unfold update_todo. rewrite G. discriminate.
Qed.

(** ** Refused requests *)

(** X1: a create request without a title, with a [null] title, or with a title
    that is empty or longer than 200 characters as sent is answered 422, and
    no row is written. *)
Theorem create_rejects_bad_title (now : datetime) (body : CreateBody)
  (db : Db.Table) :
  cb_title body = Absent \/ cb_title body = Null \/
  (exists s, cb_title body = Value s /\ (Str.len s < 1 \/ 200 < Str.len s)) ->
  POST_todos now body db = (Error 422 "validation error", db).
Proof.
  unfold POST_todos, validate_TodoCreate.
  intros [-> | [-> | (s & -> & H)]]; try reflexivity.
  now rewrite (title_ok_false s H).
Qed.

Lemma create_rejects_bad_title_witness :
  POST_todos 7 (mkCreateBody Null (Value ("x" : str)) Absent) (sample_table 2)
  = (Error 422 "validation error", sample_table 2).
Proof.
  apply (create_rejects_bad_title 7
           (mkCreateBody Null (Value ("x" : str)) Absent) (sample_table 2)).
  right. left. reflexivity.
Defined.

(** X2: an update whose title is empty or longer than 200 characters as sent is
    answered 422 with the table as it was, whether or not the identifier is
    stored: the body is checked before the row is looked up. *)
Theorem update_rejects_bad_title (now : datetime) (todo_id : Z)
  (body : UpdateBody) (db : Db.Table) (s : str) :
  ub_title body = Value s ->
  Str.len s < 1 \/ 200 < Str.len s ->
  PUT_todo now todo_id body db = (Error 422 "validation error", db).
Proof.
  intros E H. unfold PUT_todo, validate_TodoUpdate.
  now rewrite E, (title_ok_false s H).
Qed.

Lemma update_rejects_bad_title_witness :
  PUT_todo 7 99 (mkUpdateBody (Value ("" : str)) Absent Absent Absent)
           (sample_table 2)
  = (Error 422 "validation error", sample_table 2).
Proof.
  apply (update_rejects_bad_title 7 99
           (mkUpdateBody (Value ("" : str)) Absent Absent Absent)
           (sample_table 2) ("" : str)).
  - reflexivity.
  - left. cbn. lia.
Defined.

(** X3: a request that is answered with an error has written nothing, on every
    route; fetching and listing write nothing whatever they answer. *)
Theorem errors_write_nothing (now : datetime) (todo_id : Z)
  (cbody : CreateBody) (ubody : UpdateBody) (q : ListQuery) (db : Db.Table) :
  (forall st d db', POST_todos now cbody db = (Error st d, db') -> db' = db) /\
  (forall st d db', PUT_todo now todo_id ubody db = (Error st d, db') -> db' = db) /\
  (forall st d db', delete_todo todo_id db = (Error st d, db') -> db' = db) /\
  snd (get_todo todo_id db) = db /\
  snd (GET_todos q db) = db.
Proof.
  repeat split.
  - intros st d db'. unfold POST_todos.
    destruct (validate_TodoCreate cbody); [discriminate|].
    intros H. now injection H.
  - intros st d db'. unfold PUT_todo.
    destruct (validate_TodoUpdate ubody) as [p|];
      [|intros H; now injection H].
    destruct (Db.get db todo_id) as [t|] eqn:G.
    + destruct (update_todo_found now todo_id p db t G) as (t' & -> & _).
      discriminate.
    + unfold update_todo. rewrite G. intros H. now injection H.
  - intros st d db'. unfold delete_todo.
    destruct (Db.get db todo_id); [discriminate|].
    intros H. now injection H.
  - unfold get_todo. destruct (Db.get db todo_id); reflexivity.
  - unfold GET_todos. case_queries.
Qed.

Lemma errors_write_nothing_witness :
  fst (PUT_todo 7 99 (mkUpdateBody Absent Absent Absent (Value true))
                (sample_table 2)) = Error 404 "Todo not found" /\
  snd (PUT_todo 7 99 (mkUpdateBody Absent Absent Absent (Value true))
                (sample_table 2)) = sample_table 2.
Proof.
  split; [reflexivity|].
  destruct (errors_write_nothing 7 99 (mkCreateBody Absent Absent Absent)
              (mkUpdateBody Absent Absent Absent (Value true))
              (mkListQuery None None None None) (sample_table 2))
    as (_ & H & _).
  exact (H 404 "Todo not found" _ eq_refl).
Defined.

(** ** What an update keeps *)

(** X4: a successful update never changes the identifier or [created_at] of the
    row; a member that the body leaves out or gives as [null] keeps its
    stored value for title, description and completed, a title that is given
    is stored stripped, and [updated_at] is the time of the call. *)
Theorem update_keeps_identity_and_unsent_members (now : datetime) (todo_id : Z)
  (body : UpdateBody) (db db' : Db.Table) (status : Z) (t t' : Todo) :
  Db.get db todo_id = Some t ->
  PUT_todo now todo_id body db = (Ok status t', db') ->
  id t' = id t /\
  created_at t' = created_at t /\
  updated_at t' = now /\
  title t' = match ub_title body with
             | Value s => Str.strip s
             | _ => title t
             end /\
  description t' = match ub_description body with
                   | Value s => Some s
                   | _ => description t
                   end /\
  completed t' = match ub_completed body with
                 | Value c => c
                 | _ => completed t
                 end.
Proof.
  intros G H. apply PUT_todo_Ok in H.
  destruct H as (t0 & G' & _ & _ & Hid & Hti & Hde & Hco & Hcr & Hup & _).
  rewrite G in G'. injection G' as <-.
  destruct (DbFacts.get_Some _ _ _ G) as [_ Hid0].
  repeat split; auto. congruence.
Qed.

Lemma update_keeps_identity_and_unsent_members_witness :
  let t := sample_row 1 in
  let t' := mkTodo 1 ("Buy milk" : str) None None false 0 50 in
  id t' = id t /\
  created_at t' = created_at t /\
  updated_at t' = 50 /\
  title t' = Str.strip ("  Buy milk " : str) /\
  description t' = description t /\
  completed t' = completed t.
Proof.
  exact (update_keeps_identity_and_unsent_members 50 1
           (mkUpdateBody (Value ("  Buy milk " : str)) Null Absent Absent)
           (sample_table 2) _ 200 (sample_row 1) _ eq_refl eq_refl).
Defined.

(** X5: a successful update rewrites one row: the table keeps its identifiers in
    their order, and every other identifier fetches what it fetched
    before. *)
Theorem update_leaves_other_rows (now : datetime) (todo_id : Z)
  (body : UpdateBody) (db db' : Db.Table) (status : Z) (t' : Todo) :
  PUT_todo now todo_id body db = (Ok status t', db') ->
  map id db' = map id db /\
  (forall j, j <> todo_id -> get_todo j db' = (fst (get_todo j db), db')).
Proof.
  intros H. apply PUT_todo_Ok in H.
  destruct H as (t0 & _ & -> & _ & Hid & _).
  split; [apply DbFacts.update_ids|].
  intros j Hj. unfold get_todo.
  rewrite get_update_other by congruence.
  destruct (Db.get db j); reflexivity.
Qed.

Lemma update_leaves_other_rows_witness :
  let db' := snd (PUT_todo 50 1 (mkUpdateBody Absent Absent Null (Value true))
                           (sample_table 3)) in
  map id db' = map id (sample_table 3) /\
  (forall j, j <> 1 -> get_todo j db' = (fst (get_todo j (sample_table 3)), db')).
Proof.
  exact (update_leaves_other_rows 50 1
           (mkUpdateBody Absent Absent Null (Value true))
           (sample_table 3) _ 200 _ eq_refl).
Defined.

(** X6: no update removes a description: [description] given as [null] acts like
    a description that is left out, so a row that has a description still has
    one after every successful update. *)
Theorem update_never_clears_description (now : datetime) (todo_id : Z)
  (body : UpdateBody) (db db' : Db.Table) (status : Z) (t t' : Todo) (d : str) :
  Db.get db todo_id = Some t ->
  description t = Some d ->
  PUT_todo now todo_id body db = (Ok status t', db') ->
  (exists d', description t' = Some d') /\
  (ub_description body = Null -> description t' = Some d).
Proof.
  intros G Hd H. apply PUT_todo_Ok in H.
  destruct H as (t0 & G' & _ & _ & _ & _ & Hde & _).
  rewrite G in G'. injection G' as <-. rewrite Hde.
  destruct (ub_description body); split; eauto; discriminate.
Qed.

Lemma update_never_clears_description_witness :
  let t := mkTodo 1 ("call" : str) (Some ("at noon" : str)) None false 0 0 in
  let t' := mkTodo 1 ("call" : str) (Some ("at noon" : str)) None false 0 9 in
  (exists d', description t' = Some d') /\
  (@Null str = Null -> description t' = Some ("at noon" : str)).
Proof.
  exact (update_never_clears_description 9 1
           (mkUpdateBody Absent Null Absent Absent)
           [mkTodo 1 ("call" : str) (Some ("at noon" : str)) None false 0 0]
           _ 200 _ _ ("at noon" : str) eq_refl eq_refl eq_refl).
Defined.

(** ** Reading back what was written *)

(** X7: fetching the identifier that a successful create or update answered gives
    200 with the very row of that answer. *)
Theorem get_returns_the_written_row (now : datetime) (todo_id : Z)
  (cbody : CreateBody) (ubody : UpdateBody) (db : Db.Table) :
  (forall st t db', POST_todos now cbody db = (Ok st t, db') ->
     get_todo (id t) db' = (Ok 200 t, db')) /\
  (forall st t db', PUT_todo now todo_id ubody db = (Ok st t, db') ->
     get_todo todo_id db' = (Ok 200 t, db')).
Proof.
  split; intros st t db' H.
  - unfold POST_todos in H.
    destruct (validate_TodoCreate cbody) as [p|]; [|discriminate].
    unfold create_todo, Db.add in H. simpl in H. injection H as _ <- <-.
    unfold get_todo.
    match goal with |- context [Db.get (_ ++ [?r]) _] =>
      rewrite (DbFacts.get_add db r) by apply DbFacts.next_id_not_in end.
    reflexivity.
  - apply PUT_todo_Ok in H.
    destruct H as (t0 & G & -> & _ & Hid & _).
    unfold get_todo. rewrite <- Hid at 1. rewrite <- Hid in G.
    now rewrite (DbFacts.get_update db t0 t G).
Qed.

Lemma get_returns_the_written_row_witness :
  let r := POST_todos 7 (mkCreateBody (Value ("walk" : str)) Absent Absent)
                      (sample_table 2) in
  get_todo 3 (snd r) = (Ok 200 (mkTodo 3 ("walk" : str) None None false 7 7), snd r).
Proof.
  destruct (get_returns_the_written_row 7 1
              (mkCreateBody (Value ("walk" : str)) Absent Absent)
              (mkUpdateBody Absent Absent Absent Absent) (sample_table 2))
    as [H _].
  exact (H 201 _ _ eq_refl).
Defined.

(** ** Deleting *)

Lemma In_execute (db : Db.Table) (stmt : Sql.Select) (t : Todo) :
  In t (Sql.execute db stmt) -> In t db.
Proof.
  unfold Sql.execute, Sql.paginate. intros H.
  apply (Permutation_in t (SqlFacts.sort_rows_perm (Sql.order_by_clauses stmt) db)).
  set (s := Sql.sort_rows (Sql.order_by_clauses stmt) db) in *.
  assert (Hoff : forall x,
             In x match Sql.offset_clause stmt with
                  | Some m => skipn (Z.to_nat m) s
                  | None => s
                  end -> In x s).
  { intros x. destruct (Sql.offset_clause stmt) as [m|]; [|auto].
    intros Hx. rewrite <- (firstn_skipn (Z.to_nat m) s).
    apply in_or_app. now right. }
  destruct (Sql.limit_clause stmt) as [n|]; [|now apply Hoff].
  destruct (n <? 0); [now apply Hoff|].
  apply Hoff.
  match type of H with In _ (firstn ?k ?l) =>
    rewrite <- (firstn_skipn k l); apply in_or_app; now left end.
Qed.

(** X8: deleting a stored identifier answers 204; from then on fetching it and
    deleting it again answer 404, no listing shows a row with it, and every
    other identifier fetches what it fetched before. *)
Theorem delete_removes_exactly_that_row (todo_id : Z) (db : Db.Table) :
  In todo_id (map id db) ->
  exists db',
    delete_todo todo_id db = (Ok 204 tt, db') /\
    get_todo todo_id db' = (Error 404 "Todo not found", db') /\
    delete_todo todo_id db' = (Error 404 "Todo not found", db') /\
    (forall j, j <> todo_id -> get_todo j db' = (fst (get_todo j db), db')) /\
    (forall sort_by order limit offset l t,
       list_todos db' sort_by order limit offset = Ok 200 l ->
       In t l -> id t <> todo_id /\ In t db).
Proof.
  intros Hin. exists (Db.delete db todo_id).
  destruct (Db.get db todo_id) as [t0|] eqn:G;
    [|apply DbFacts.get_None in G; contradiction].
  destruct (DbFacts.get_Some _ _ _ G) as [_ Hid].
  split; [unfold delete_todo; rewrite G, Hid; reflexivity|].
  split; [unfold get_todo; now rewrite DbFacts.get_delete|].
  split; [unfold delete_todo; now rewrite DbFacts.get_delete|].
  split.
  - intros j Hj. unfold get_todo. rewrite get_delete_other by exact Hj.
    destruct (Db.get db j); reflexivity.
  - intros sort_by order limit offset l t H Ht.
    unfold list_todos in H. injection H as <-.
    apply In_execute, In_delete in Ht. tauto.
Qed.

Lemma delete_removes_exactly_that_row_witness :
  exists db',
    delete_todo 2 (sample_table 3) = (Ok 204 tt, db') /\
    get_todo 2 db' = (Error 404 "Todo not found", db') /\
    delete_todo 2 db' = (Error 404 "Todo not found", db') /\
    (forall j, j <> 2 -> get_todo j db' = (fst (get_todo j (sample_table 3)), db')) /\
    (forall sort_by order limit offset l t,
       list_todos db' sort_by order limit offset = Ok 200 l ->
       In t l -> id t <> 2 /\ In t (sample_table 3)).
Proof.
  apply (delete_removes_exactly_that_row 2 (sample_table 3)).
  simpl. right. left. reflexivity.
Defined.

(** ** Invariants of the table *)

Lemma handlers_keep_primary_key_witness :
  Db.pk_unique (snd (create_todo 7 (mkTodoCreate ("walk" : str) None None)
                                 (sample_table 3))) = true /\
  Db.pk_unique (snd (get_todo 2 (sample_table 3))) = true /\
  Db.pk_unique (snd (update_todo 7 2 (mkTodoUpdate None None None (Some true))
                                 (sample_table 3))) = true /\
  Db.pk_unique (snd (delete_todo 2 (sample_table 3))) = true.
Proof.
  apply (handlers_keep_primary_key 7 2 (mkTodoCreate ("walk" : str) None None)
           (mkTodoUpdate None None None (Some true)) (sample_table 3)).
  reflexivity.
Defined.

Lemma POST_todos_valid (now : datetime) (body : CreateBody) (db : Db.Table)
  (s : str) :
  cb_title body = Value s ->
  1 <= Str.len s <= 200 ->
  POST_todos now body db =
    let t := mkTodo (Db.next_id db) (Str.strip s)
                    (field_value (cb_description body))
                    (field_value (cb_deadline body)) false now now in
    (Ok 201 t, db ++ [t]).
Proof.
  intros E H. unfold POST_todos, validate_TodoCreate. rewrite E.
  destruct (title_ok_iff s) as [_ ->]; [reflexivity | exact H].
Qed.

Lemma POST_todos_rows (now : datetime) (body : CreateBody) (db : Db.Table)
  (r : Todo) :
  In r (snd (POST_todos now body db)) ->
  In r db \/
  exists s, cb_title body = Value s /\ 1 <= Str.len s <= 200 /\
            title r = Str.strip s /\ created_at r = now /\ updated_at r = now.
Proof.
  unfold POST_todos. destruct (validate_TodoCreate body) as [p|] eqn:V;
    [|simpl; auto].
  destruct (validate_TodoCreate_inv _ _ V) as (Ht & Hl & _).
  unfold create_todo, Db.add. simpl. intros H. apply in_app_or in H.
  destruct H as [H|[<-|[]]]; [now left|].
  right. exists (c_title p). simpl. auto.
Qed.

Lemma PUT_todo_rows (now : datetime) (i : Z) (body : UpdateBody)
  (db : Db.Table) (r : Todo) :
  In r (snd (PUT_todo now i body db)) ->
  In r db \/
  exists t, In t db /\ created_at r = created_at t /\ updated_at r = now /\
    (title r = title t \/
     exists s, 1 <= Str.len s <= 200 /\ title r = Str.strip s).
Proof.
  destruct (PUT_todo now i body db) as [[st t'|st d] db'] eqn:E.
  - apply PUT_todo_Ok in E.
    destruct E as (t & G & -> & _ & _ & Hti & _ & _ & Hcr & Hup & Hlen).
    simpl. intros H. apply In_update in H. destruct H as [->|H]; [|now left].
    right. exists t. destruct (DbFacts.get_Some _ _ _ G) as [Hin _].
    repeat split; auto.
    destruct (ub_title body) as [| |s]; auto.
    right. exists s. auto.
  - simpl. intros H. left.
    unfold PUT_todo in E. destruct (validate_TodoUpdate body) as [p|].
    + destruct (Db.get db i) as [t|] eqn:G.
      * destruct (update_todo_found now i p db t G) as (t' & E' & _).
        rewrite E' in E. discriminate.
      * unfold update_todo in E. rewrite G in E. injection E as _ _ <-.
        exact H.
    + injection E as _ _ <-. exact H.
Qed.

Lemma delete_todo_rows (i : Z) (db : Db.Table) (r : Todo) :
  In r (snd (delete_todo i db)) -> In r db.
Proof.
  unfold delete_todo. destruct (Db.get db i); simpl; [|auto].
  intros H. apply In_delete in H. tauto.
Qed.

(** X10: when the clock is not behind the creation time of any stored row, the
    writes keep every row's [created_at] at or before its [updated_at]. *)
Theorem writes_keep_timestamps_ordered (now : datetime) (todo_id : Z)
  (cbody : CreateBody) (ubody : UpdateBody) (db : Db.Table) :
  timestamps_ok db ->
  (forall t, In t db -> created_at t <= now) ->
  timestamps_ok (snd (POST_todos now cbody db)) /\
  timestamps_ok (snd (PUT_todo now todo_id ubody db)) /\
  timestamps_ok (snd (delete_todo todo_id db)).
Proof.
  unfold timestamps_ok. rewrite !Forall_forall. intros Hok Hnow.
  repeat split; intros r Hr.
  - apply POST_todos_rows in Hr.
    destruct Hr as [Hr|(s & _ & _ & _ & -> & ->)]; [auto | lia].
  - apply PUT_todo_rows in Hr.
    destruct Hr as [Hr|(t & Ht & -> & -> & _)]; auto.
  - apply delete_todo_rows in Hr. auto.
Qed.

Lemma writes_keep_timestamps_ordered_witness :
  timestamps_ok (snd (POST_todos 9 (mkCreateBody (Value ("walk" : str)) Absent Absent)
                                 (sample_table 3))) /\
  timestamps_ok (snd (PUT_todo 9 2 (mkUpdateBody Absent Absent Absent (Value true))
                               (sample_table 3))) /\
  timestamps_ok (snd (delete_todo 2 (sample_table 3))).
Proof.
  apply (writes_keep_timestamps_ordered 9 2).
  - repeat constructor; cbn; lia.
  - simpl. intros t [<-|[<-|[<-|[]]]]; cbn; lia.
Defined.

(** X11: the writes keep every stored title free of blanks at both ends and at
    most 200 characters long. *)
Theorem writes_keep_titles_trimmed (now : datetime) (todo_id : Z)
  (cbody : CreateBody) (ubody : UpdateBody) (db : Db.Table) :
  titles_ok db ->
  titles_ok (snd (POST_todos now cbody db)) /\
  titles_ok (snd (PUT_todo now todo_id ubody db)) /\
  titles_ok (snd (delete_todo todo_id db)).
Proof.
  unfold titles_ok. rewrite !Forall_forall. intros Hok.
  assert (Hs : forall s, 1 <= Str.len s <= 200 ->
                 blank_free_ends (Str.strip s) /\ Str.len (Str.strip s) <= 200).
  { intros s H. split; [apply StripFacts.strip_ends|].
    pose proof (StripFacts.strip_len s). lia. }
  split; [|split]; intros r Hr.
  - apply POST_todos_rows in Hr.
    destruct Hr as [Hr|(s & _ & Hl & -> & _)]; auto.
  - apply PUT_todo_rows in Hr.
    destruct Hr as [Hr|(t & Ht & _ & _ & [->|(s & Hl & ->)])]; auto.
  - apply delete_todo_rows in Hr. auto.
Qed.

Lemma writes_keep_titles_trimmed_witness :
  titles_ok (snd (POST_todos 9 (mkCreateBody (Value (" walk " : str)) Absent Absent)
                             (sample_table 2))) /\
  titles_ok (snd (PUT_todo 9 2 (mkUpdateBody (Value ("run  " : str)) Absent
                                             Absent Absent)
                           (sample_table 2))) /\
  titles_ok (snd (delete_todo 2 (sample_table 2))).
Proof.
  apply (writes_keep_titles_trimmed 9 2).
  repeat constructor; cbn; try lia;
    intros c H; injection H as <-; reflexivity.
Defined.

(** X12: a title made of blanks only, 1 to 200 of them, is accepted by create and
    by update, and what is stored is the empty title. *)
Theorem blank_title_is_stored_empty (now : datetime) (todo_id : Z)
  (cbody : CreateBody) (ubody : UpdateBody) (db : Db.Table) (s : str) :
  1 <= Str.len s <= 200 ->
  forallb Str.isspace s = true ->
  (cb_title cbody = Value s ->
   exists t, POST_todos now cbody db = (Ok 201 t, db ++ [t]) /\ title t = []) /\
  (ub_title ubody = Value s -> In todo_id (map id db) ->
   exists t db', PUT_todo now todo_id ubody db = (Ok 200 t, db') /\
                 Db.get db' todo_id = Some t /\ title t = []).
Proof.
  intros Hl Hb. split.
  - intros E. rewrite (POST_todos_valid now cbody db s E Hl). simpl.
    eexists. split; [reflexivity|]. simpl. now apply StripFacts.strip_blank.
  - intros E Hin.
    destruct (Db.get db todo_id) as [t0|] eqn:G;
      [|apply DbFacts.get_None in G; contradiction].
    unfold PUT_todo. rewrite validate_TodoUpdate_Some
      by (intros s' E'; rewrite E in E'; injection E' as <-; exact Hl).
    destruct (update_todo_found now todo_id
                (mkTodoUpdate (field_value (ub_title ubody))
                   (field_value (ub_description ubody))
                   (field_value (ub_deadline ubody))
                   (field_value (ub_completed ubody))) db t0 G)
      as (t' & E' & Hg & _ & Hti & _).
    exists t', (Db.update db t'). split; [exact E'|]. split; [exact Hg|].
    rewrite Hti. simpl. rewrite E. simpl. now apply StripFacts.strip_blank.
Qed.

Lemma blank_title_is_stored_empty_witness :
  (exists t, POST_todos 7 (mkCreateBody (Value [9; 32; 160]%N) Absent Absent)
                        (sample_table 2)
             = (Ok 201 t, sample_table 2 ++ [t]) /\ title t = []) /\
  (exists t db', PUT_todo 7 1 (mkUpdateBody (Value [9; 32; 160]%N) Absent Absent Absent)
                          (sample_table 2) = (Ok 200 t, db') /\
                 Db.get db' 1 = Some t /\ title t = []).
Proof.
  destruct (blank_title_is_stored_empty 7 1
              (mkCreateBody (Value [9; 32; 160]%N) Absent Absent)
              (mkUpdateBody (Value [9; 32; 160]%N) Absent Absent Absent)
              (sample_table 2) [9; 32; 160]%N) as [H1 H2].
  - cbn. lia.
  - reflexivity.
  - split; [apply H1; reflexivity|].
    apply H2; [reflexivity | simpl; left; reflexivity].
Defined.

(** ** The default sort, in full *)

(** X13: for a limit and an offset from 0 to 2^63 - 1, the listing by
    deadline, ascending: the rows with a deadline in the order of the
    deadline, equal deadlines in the order of the identifier, then the rows
    without a deadline in the order of the identifier.  Descending, it is the
    reverse order throughout: the rows without a deadline first, by
    decreasing identifier, then the others by decreasing deadline and
    identifier. *)
Theorem list_orders_by_deadline (db : Db.Table) (order : str)
  (limit offset : Z) :
  In order directions ->
  0 <= limit < 2 ^ 63 -> 0 <= offset < 2 ^ 63 ->
  exists s,
    Permutation s db /\
    StronglySorted (deadline_order order) s /\
    list_todos db "deadline" order limit offset
      = Ok 200 (Sql.paginate (Some limit) (Some offset) s) /\
    StronglySorted (deadline_order order)
      (Sql.paginate (Some limit) (Some offset) s).
Proof.
  intros Ho _ _.
  exists (Sql.execute db (apply_sort Sql.select_Todo "deadline" order)).
  pose proof (execute_sorted_by_deadline order db Ho) as S.
  split; [rewrite execute_apply_sort; apply SqlFacts.sort_rows_perm|].
  split; [exact S|]. split; [|now apply paginate_sorted].
  unfold list_todos. now rewrite apply_sort_execute.
Qed.

Lemma list_orders_by_deadline_witness :
  exists s,
    Permutation s (sample_table 6) /\
    StronglySorted (deadline_order "desc") s /\
    list_todos (sample_table 6) "deadline" "desc" 4 1
      = Ok 200 (Sql.paginate (Some 4) (Some 1) s) /\
    StronglySorted (deadline_order "desc")
      (Sql.paginate (Some 4) (Some 1) s).
Proof.
  apply (list_orders_by_deadline (sample_table 6) "desc" 4 1).
  - simpl. right. left. reflexivity.
  - lia.
  - lia.
Defined.

(** ** The listing depends on the stored rows only *)

Lemma row_compare_Eq_id (cl : list Sql.clause) (d : Sql.direction) (a b : Todo) :
  Sql.row_compare (cl ++ [(d, Todo_id)]) a b = Eq -> id a = id b.
Proof.
  induction cl as [|[o e] cl IH]; simpl.
  - unfold Todo_id. simpl.
    destruct (Z.compare_spec (id a) (id b)); destruct d; simpl; congruence.
  - destruct (Sql.directed o (Sql.compare (e a) (e b))); try discriminate.
    exact IH.
Qed.

Lemma apply_sort_ends_with_id (sort_by order : str) :
  exists cl d,
    Sql.order_by_clauses (apply_sort Sql.select_Todo sort_by order)
    = cl ++ [(d, Todo_id)].
Proof.
  unfold apply_sort.
  destruct (Str.eqb sort_by "created_at"); [|destruct (Str.eqb sort_by "title")].
  - eexists [_], _. reflexivity.
  - eexists [_], _. reflexivity.
  - eexists [_; _], _. reflexivity.
Qed.

Lemma same_id_same_row (db : Db.Table) (a b : Todo) :
  NoDup (map id db) -> In a db -> In b db -> id a = id b -> a = b.
Proof.
  induction db as [|r db IH]; simpl; [tauto|].
  intros H. inversion H as [|? ? Hn Hd]; subst.
  intros [<-|Ha] [<-|Hb] E; auto.
  - exfalso. apply Hn. rewrite E. now apply in_map.
  - exfalso. apply Hn. rewrite <- E. now apply in_map.
Qed.

Lemma sorted_perm_unique (cmp : Todo -> Todo -> comparison) (l1 l2 : list Todo) :
  (forall a b, In a l1 -> In b l1 -> le cmp a b -> le cmp b a -> a = b) ->
  StronglySorted (le cmp) l1 -> StronglySorted (le cmp) l2 ->
  Permutation l1 l2 -> l1 = l2.
Proof.
  revert l2. induction l1 as [|a l1 IH]; intros l2 Hanti S1 S2 P.
  - now apply Permutation_nil in P.
  - destruct l2 as [|b l2];
      [symmetry in P; now apply Permutation_nil in P|].
    apply StronglySorted_inv in S1. destruct S1 as [S1 F1].
    apply StronglySorted_inv in S2. destruct S2 as [S2 F2].
    rewrite Forall_forall in F1, F2.
    assert (Hb : In b (a :: l1))
      by (apply (Permutation_in b (Permutation_sym P)); now left).
    assert (Ha : In a (b :: l2))
      by (apply (Permutation_in a P); now left).
    assert (E : a = b).
    { destruct Hb as [Hb|Hb]; [exact Hb|].
      destruct Ha as [Ha|Ha]; [now symmetry|].
      apply Hanti; simpl; auto. }
    subst b. f_equal. apply IH; auto.
    + intros x y Hx Hy. apply Hanti; now right.
    + now apply Permutation_cons_inv in P.
Qed.

(** X14: two tables with unique identifiers that hold the same rows, in whatever
    order, are answered the same listing for every query. *)
Theorem listing_ignores_storage_order (q : ListQuery) (db db' : Db.Table) :
  Db.pk_unique db = true ->
  Permutation db db' ->
  fst (GET_todos q db) = fst (GET_todos q db').
Proof.
  intros Hpk P.
  assert (E : forall sort_by order,
             Sql.execute db (apply_sort Sql.select_Todo sort_by order)
             = Sql.execute db' (apply_sort Sql.select_Todo sort_by order)).
  { intros sort_by order. rewrite !execute_apply_sort.
    destruct (apply_sort_ends_with_id sort_by order) as (cl & d & ->).
    set (c := cl ++ [(d, Todo_id)]).
    apply (sorted_perm_unique (Sql.row_compare c)).
    - intros a b Ha Hb Hab Hba.
      apply (Permutation_in _ (SqlFacts.sort_rows_perm c db)) in Ha, Hb.
      apply (same_id_same_row db); auto using DbFacts.pk_unique_NoDup.
      apply (row_compare_Eq_id cl d).
      change (Sql.row_compare c a b = Eq). unfold le in *.
      rewrite (cmp_antisym _ (SqlFacts.preorder_row_compare c) a b) in Hba.
      destruct (Sql.row_compare c a b); simpl in *; congruence.
    - apply SqlFacts.sort_rows_sorted.
    - apply SqlFacts.sort_rows_sorted.
    - rewrite (SqlFacts.sort_rows_perm c db), (SqlFacts.sort_rows_perm c db').
      exact P. }
  unfold GET_todos.
  destruct (Query_str _ _ (q_sort_by q)) as [sort_by|]; [|reflexivity].
  destruct (Query_str _ _ (q_order q)) as [order|]; [|reflexivity].
  destruct (Query_int _ _ _ (q_limit q)) as [limit|]; [|reflexivity].
  destruct (Query_int _ _ _ (q_offset q)) as [offset|]; [|reflexivity].
  simpl. unfold list_todos. now rewrite !apply_sort_execute, E.
Qed.

Lemma listing_ignores_storage_order_witness :
  fst (GET_todos (mkListQuery (Some ("title" : str)) (Some ("desc" : str))
                              (Some 2) None)
                 (sample_table 3))
  = fst (GET_todos (mkListQuery (Some ("title" : str)) (Some ("desc" : str))
                                (Some 2) None)
                   (rev (sample_table 3))).
Proof.
  apply (listing_ignores_storage_order _ (sample_table 3) (rev (sample_table 3))).
  - reflexivity.
  - apply Permutation_rev.
Defined.

(** ** Pages *)

Lemma firstn_plus {A : Type} (a b : nat) (l : list A) :
  firstn (a + b) l = firstn a l ++ firstn b (skipn a l).
Proof.
  revert l. induction a as [|a IH]; intros l; simpl; [reflexivity|].
  destruct l as [|x l]; simpl; [now destruct b|]. now rewrite IH.
Qed.

Lemma NoDup_ids_page (n m : nat) (s : list Todo) :
  NoDup (map id s) -> NoDup (map id (firstn n (skipn m s))).
Proof.
  intros H. rewrite <- (firstn_skipn m s), map_app in H.
  apply NoDup_app_remove_l in H.
  rewrite <- (firstn_skipn n (skipn m s)), map_app in H.
  now apply NoDup_app_remove_r in H.
Qed.

(** X15: for the handler, a page of [l1] rows followed by the page of [l2] rows
    that starts where it ends is the page of [l1 + l2] rows at the same
    offset, as long as every limit and offset of the three calls is below
    2^63. *)
Theorem consecutive_pages_concatenate (db : Db.Table) (sort_by order : str)
  (l1 l2 offset : Z) :
  0 <= l1 -> 0 <= l2 -> 0 <= offset ->
  l1 + l2 < 2 ^ 63 -> offset + l1 < 2 ^ 63 ->
  exists p1 p2,
    list_todos db sort_by order l1 offset = Ok 200 p1 /\
    list_todos db sort_by order l2 (offset + l1) = Ok 200 p2 /\
    list_todos db sort_by order (l1 + l2) offset = Ok 200 (p1 ++ p2).
Proof.
  intros H1 H2 Ho _ _. unfold list_todos. rewrite !apply_sort_execute.
  rewrite !paginate_valid by lia.
  do 2 eexists. split; [reflexivity|]. split; [reflexivity|].
  rewrite !Z2Nat.inj_add by lia. rewrite firstn_plus, skipn_skipn.
  now rewrite (Nat.add_comm (Z.to_nat l1)).
Qed.

Lemma consecutive_pages_concatenate_witness :
  exists p1 p2,
    list_todos (sample_table 7) "title" "asc" 2 1 = Ok 200 p1 /\
    list_todos (sample_table 7) "title" "asc" 3 (1 + 2) = Ok 200 p2 /\
    list_todos (sample_table 7) "title" "asc" (2 + 3) 1 = Ok 200 (p1 ++ p2).
Proof.
  apply (consecutive_pages_concatenate (sample_table 7) "title" "asc" 2 3 1);
    lia.
Defined.

(** X16: a valid query whose offset is at or past the number of stored rows,
    and below 2^63, is answered 200 with the empty list; so is every such
    query on the empty table. *)
Theorem offset_past_the_end_is_empty (db : Db.Table) (sort_by order : str)
  (limit offset : Z) :
  In sort_by sort_keys -> In order directions ->
  1 <= limit <= 200 ->
  Z.of_nat (List.length db) <= offset < 2 ^ 63 ->
  GET_todos (mkListQuery (Some sort_by) (Some order) (Some limit) (Some offset)) db
  = (Ok 200 [], db).
Proof.
  intros Hs Ho Hl Hoff. rewrite GET_todos_valid by (auto; lia).
  rewrite skipn_all2; [now rewrite firstn_nil|].
  rewrite execute_apply_sort, SqlFacts.sort_rows_length. lia.
Qed.

Lemma offset_past_the_end_is_empty_witness :
  GET_todos (mkListQuery (Some ("created_at" : str)) (Some ("desc" : str))
                         (Some 10) (Some 3)) (sample_table 3)
  = (Ok 200 [], sample_table 3).
Proof.
  apply (offset_past_the_end_is_empty (sample_table 3) "created_at" "desc" 10 3).
  - simpl. right. left. reflexivity.
  - simpl. right. left. reflexivity.
  - lia.
  - cbn. lia.
Defined.

(** X17: a valid query with an offset below 2^63 is answered 200 with stored rows only, each identifier at
    most once when the identifiers of the table are unique; with offset 0 and
    a limit that is not below the number of stored rows, every stored row is
    in the answer. *)
Theorem page_holds_stored_rows (db : Db.Table) (sort_by order : str)
  (limit offset : Z) :
  In sort_by sort_keys -> In order directions ->
  1 <= limit <= 200 -> 0 <= offset < 2 ^ 63 ->
  exists p,
    GET_todos (mkListQuery (Some sort_by) (Some order) (Some limit) (Some offset)) db
      = (Ok 200 p, db) /\
    (forall t, In t p -> In t db) /\
    (Db.pk_unique db = true -> NoDup (map id p)) /\
    (offset = 0 -> Z.of_nat (List.length db) <= limit -> Permutation p db).
Proof.
  intros Hs Ho Hl Hoff. rewrite GET_todos_valid by (auto; lia).
  eexists. split; [reflexivity|].
  pose proof (SqlFacts.sort_rows_perm
                (Sql.order_by_clauses (apply_sort Sql.select_Todo sort_by order))
                db) as P.
  rewrite execute_apply_sort.
  set (s := Sql.sort_rows _ db) in *.
  split; [|split].
  - intros t Ht. apply (Permutation_in t P).
    rewrite <- (firstn_skipn (Z.to_nat offset) s). apply in_or_app. right.
    rewrite <- (firstn_skipn (Z.to_nat limit) (skipn (Z.to_nat offset) s)).
    apply in_or_app. now left.
  - intros Hpk. apply NoDup_ids_page.
    apply (Permutation_NoDup (l := map id db));
      [apply Permutation_map; now symmetry | now apply DbFacts.pk_unique_NoDup].
  - intros -> Hlen. simpl skipn. rewrite firstn_all2; [exact P|].
    rewrite (Permutation_length P). lia.
Qed.

Lemma page_holds_stored_rows_witness :
  exists p,
    GET_todos (mkListQuery (Some ("deadline" : str)) (Some ("asc" : str))
                           (Some 5) (Some 0)) (sample_table 4)
      = (Ok 200 p, sample_table 4) /\
    (forall t, In t p -> In t (sample_table 4)) /\
    (Db.pk_unique (sample_table 4) = true -> NoDup (map id p)) /\
    (0 = 0 -> Z.of_nat (List.length (sample_table 4)) <= 5 ->
     Permutation p (sample_table 4)).
Proof.
  apply (page_holds_stored_rows (sample_table 4) "deadline" "asc" 5 0).
  - simpl. left. reflexivity.
  - simpl. left. reflexivity.
  - lia.
  - lia.
Defined.

(** ** How the writes compose *)

Lemma get_app_other (db : Db.Table) (t : Todo) (j : Z) :
  j <> id t -> Db.get (db ++ [t]) j = Db.get db j.
Proof.
  intros H. unfold Db.get. induction db as [|r db IH]; simpl.
  - destruct (Z.eqb_spec (id t) j); congruence.
  - destruct (Z.eqb_spec (id r) j); [reflexivity | exact IH].
Qed.

Lemma PUT_todo_Ok_deadline (now : datetime) (i : Z) (body : UpdateBody)
  (db db' : Db.Table) (status : Z) (t' : Todo) :
  PUT_todo now i body db = (Ok status t', db') ->
  deadline t' = field_value (ub_deadline body) /\ Db.get db' i = Some t'.
Proof.
  unfold PUT_todo. destruct (validate_TodoUpdate body) as [p|] eqn:V;
    [|discriminate].
  destruct (validate_TodoUpdate_inv _ _ V) as (_ & _ & Hd & _).
  destruct (Db.get db i) as [t|] eqn:G.
  - destruct (update_todo_found now i p db t G)
      as (t1 & -> & Hg & _ & _ & _ & Hdl & _).
    intros H. injection H as <- <- <-. rewrite Hdl, Hd. auto.
  - unfold update_todo. rewrite G. discriminate.
Qed.

Lemma max_attained (x : Z) (l : list Z) :
  fold_right Z.max x l = x \/ In (fold_right Z.max x l) l.
Proof.
  induction l as [|y l IH]; simpl; [now left|].
  destruct (Z.max_spec y (fold_right Z.max x l)) as [[_ ->]|[_ ->]]; tauto.
Qed.

Lemma next_id_bound (db : Db.Table) (b : Z) :
  1 < b -> (forall r, In r db -> id r < b - 1) -> Db.next_id db < b.
Proof.
  intros Hb H. destruct db as [|r0 db]; [exact Hb|]. unfold Db.next_id.
  destruct (max_attained (id r0) (map id db)) as [->|Hin].
  - specialize (H r0 (or_introl eq_refl)). lia.
  - apply in_map_iff in Hin. destruct Hin as (r & E & Hr).
    specialize (H r (or_intror Hr)). lia.
Qed.

(** X18: on a table whose identifiers are all below 2^63 - 1, a successful
    create adds one row at the end of the table under an identifier above
    every stored one, itself below 2^63, and every other identifier fetches
    what it fetched before. *)
Theorem create_leaves_stored_rows (now : datetime) (body : CreateBody)
  (db db' : Db.Table) (status : Z) (t : Todo) :
  (forall r, In r db -> id r < 2 ^ 63 - 1) ->
  POST_todos now body db = (Ok status t, db') ->
  db' = db ++ [t] /\
  (forall r, In r db -> id r < id t) /\
  id t < 2 ^ 63 /\
  (forall j, j <> id t -> get_todo j db' = (fst (get_todo j db), db')).
Proof.
  intros Hb. unfold POST_todos.
  destruct (validate_TodoCreate body) as [p|]; [|discriminate].
  unfold create_todo, Db.add. simpl. intros H. injection H as _ <- <-.
  split; [reflexivity|]. split; [|split].
  - intros r Hr. simpl. now apply DbFacts.next_id_fresh.
  - simpl. apply next_id_bound; [lia | exact Hb].
  - intros j Hj. unfold get_todo. rewrite get_app_other by exact Hj.
    destruct (Db.get db j); reflexivity.
Qed.

Lemma create_leaves_stored_rows_witness :
  let t := mkTodo 4 ("walk" : str) None None false 7 7 in
  sample_table 3 ++ [t] = sample_table 3 ++ [t] /\
  (forall r, In r (sample_table 3) -> id r < id t) /\
  id t < 2 ^ 63 /\
  (forall j, j <> id t ->
     get_todo j (sample_table 3 ++ [t])
     = (fst (get_todo j (sample_table 3)), sample_table 3 ++ [t])).
Proof.
  refine (create_leaves_stored_rows 7
            (mkCreateBody (Value (" walk" : str)) Absent Absent)
            (sample_table 3) _ 201 _ _ eq_refl).
  simpl. intros r [<-|[<-|[<-|[]]]]; cbn; lia.
Defined.

(** X19: sending a successful update a second time gives the row of the first
    answer again, with only [updated_at] moved to the time of the second
    call: an update sets members, it does not accumulate. *)
Theorem update_twice_moves_updated_at_only (now1 now2 : datetime) (todo_id : Z)
  (body : UpdateBody) (db db1 : Db.Table) (status : Z) (t1 : Todo) :
  PUT_todo now1 todo_id body db = (Ok status t1, db1) ->
  exists db2,
    PUT_todo now2 todo_id body db1 = (Ok 200 (set_updated_at t1 now2), db2) /\
    map id db2 = map id db.
Proof.
  intros H1.
  destruct (PUT_todo_Ok_deadline _ _ _ _ _ _ _ H1) as [Hd1 G1].
  pose proof (PUT_todo_Ok _ _ _ _ _ _ _ H1)
    as (t0 & _ & Hdb1 & _ & Hid1 & Hti1 & Hde1 & Hco1 & _ & _ & Hlen).
  unfold PUT_todo in *. rewrite (validate_TodoUpdate_Some body Hlen) in *.
  destruct (update_todo_found now2 todo_id
              (mkTodoUpdate (field_value (ub_title body))
                 (field_value (ub_description body))
                 (field_value (ub_deadline body))
                 (field_value (ub_completed body))) db1 t1 G1)
    as (t2 & E2 & _ & Hid2 & Hti2 & Hde2 & Hdl2 & Hco2 & Hcr2 & Hup2).
  simpl in Hti2, Hde2, Hdl2, Hco2.
  assert (E : t2 = set_updated_at t1 now2).
  { destruct t2, t1. unfold set_updated_at. simpl in *. subst.
    destruct (ub_title body), (ub_description body), (ub_completed body);
      simpl in *; congruence. }
  exists (Db.update db1 t2). rewrite E2, E. split; [reflexivity|].
  rewrite DbFacts.update_ids, Hdb1. apply DbFacts.update_ids.
Qed.

Lemma update_twice_moves_updated_at_only_witness :
  let body := mkUpdateBody (Value ("  run " : str)) Absent Absent (Value true) in
  let t1 := mkTodo 2 ("run" : str) None None true 1 5 in
  exists db2,
    PUT_todo 9 2 body (snd (PUT_todo 5 2 body (sample_table 3)))
      = (Ok 200 (set_updated_at t1 9), db2) /\
    map id db2 = map id (sample_table 3).
Proof.
  exact (update_twice_moves_updated_at_only 5 9 2
           (mkUpdateBody (Value ("  run " : str)) Absent Absent (Value true))
           (sample_table 3) _ 200 _ eq_refl).
Defined.
